(** * sherlock: a distributed mutex over memcached, and the guard that runs a
      command under it

    Shallow embedding of [sherlock.py].  The memcached server is a finite map
    from keys to values shared with the other contenders; everything the
    process does to the outside (logging, store operations, sleeping,
    fork/exec/wait) is recorded in a trace.  Python exceptions are an explicit
    outcome, and the only loop of the program, the retry loop of [acquire],
    takes fuel: [None] means "still polling when the fuel ran out". *)

From Stdlib Require Import ZArith Lia.
From stdpp Require Import gmap strings list fin_maps pretty.

Local Open Scope Z_scope.
Local Open Scope string_scope.

(** ** The world outside the process *)

Inductive level := DEBUG | ERROR.

(** What another contender can do to the store: the two operations of the
    protocol, [cli.add] (create if absent) and [cli.delete]. *)
Inductive store_op :=
| OAdd (k v : string)
| ODelete (k : string).

#[global] Instance store_op_eq_dec : EqDecision store_op.
Proof. solve_decision. Defined.

Definition apply_op (st : gmap string string) (op : store_op) : gmap string string :=
  match op with
  | OAdd k v => match st !! k with Some _ => st | None => <[k:=v]> st end
  | ODelete k => delete k st
  end.

Definition apply_ops (st : gmap string string) (ops : list store_op) : gmap string string :=
  foldl apply_op st ops.

Inductive event :=
| Log (lvl : level) (msg : string)            (* logging.debug / logging.error *)
| GetStats                                    (* cli.get_stats() *)
| Add (k v : string) (stored : bool)          (* cli.add(k, v) and its answer *)
| Delete (k : string)                         (* cli.delete(k) *)
| Sleep (ms : nat)                            (* time.sleep, in milliseconds *)
| Fork                                        (* os.fork() *)
| Execvp (file : string) (args : list string) (* os.execvp(file, args) *)
| Waitpid (pid : Z).                          (* os.waitpid(pid, 0) *)

Record world := World {
  store : gmap string string;  (* contents of the memcached server *)
  clock : nat;                 (* number of sleeps this process has taken *)
  trace : list event           (* what this process did, oldest first *)
}.

Definition emit (ev : event) (w : world) : world :=
  World (store w) (clock w) (trace w ++ [ev]).

(** How a process ends, as its parent sees it. *)
Inductive termination :=
| Exited (code : Z)
| Signaled (sig : Z) (core : bool).

(** The status word [os.waitpid] returns: "a 16-bit number, whose low byte is
    the signal number that killed the process, and whose high byte is the exit
    status (if the signal number is zero); the high bit of the low byte is set
    if a core file was produced". *)
Definition wait_status (t : termination) : Z :=
  match t with
  | Exited code => Z.shiftl (Z.land code 255) 8
  | Signaled sig core => Z.lor (Z.land sig 127) (if core then 128 else 0)
  end.

(** ** Python exceptions and outcomes *)

Inductive exit_arg :=
| ExitInt (n : Z)
| ExitStr (s : string).

Inductive pyexn :=
| AcquireDenied                (* class AcquireDenied(Exception) *)
| IndexError
| OSError
| SystemExit (code : exit_arg).

(** [except Exception] catches everything but [SystemExit], which derives
    from [BaseException] only. *)
Definition is_Exception (e : pyexn) : bool :=
  match e with
  | SystemExit _ => false
  | _ => true
  end.

(** [Replaced t]: [os.execvp] succeeded, the Python program is gone and the
    process is now the command, which ends as [t]. *)
Inductive outcome (A : Type) :=
| Return (a : A)
| Raise (e : pyexn)
| Replaced (t : termination).
Arguments Return {A} a.
Arguments Raise {A} e.
Arguments Replaced {A} t.

Definition M (A : Type) : Type := world -> option (outcome A * world).

Definition ret {A} (a : A) : M A := fun w => Some (Return a, w).

Definition raise {A} (e : pyexn) : M A := fun w => Some (Raise e, w).

Definition bind {A B} (m : M A) (f : A -> M B) : M B := fun w =>
  match m w with
  | None => None
  | Some (Return a, w') => f a w'
  | Some (Raise e, w') => Some (Raise e, w')
  | Some (Replaced t, w') => Some (Replaced t, w')
  end.

Declare Scope py_scope.
Delimit Scope py_scope with py.
Notation "x <- m ;; k" := (bind m (fun x => k))
  (at level 100, m at next level, right associativity) : py_scope.
Notation "m ;;; k" := (bind m (fun _ => k))
  (at level 100, right associativity) : py_scope.
Local Open Scope py_scope.

(** [try: body / except ...:], with [handler e = None] when no clause
    matches [e]. *)
Definition try_except {A} (body : M A) (handler : pyexn -> option (M A)) : M A := fun w =>
  match body w with
  | Some (Raise e, w') =>
      match handler e with
      | Some h => h w'
      | None => Some (Raise e, w')
      end
  | r => r
  end.

(** [try: body / finally: final].  The final block runs when the body returns
    or raises; it does not run when the process image was replaced. *)
Definition try_finally {A} (body : M A) (final : M unit) : M A := fun w =>
  match body w with
  | None => None
  | Some (Replaced t, w') => Some (Replaced t, w')
  | Some (r, w') =>
      match final w' with
      | None => None
      | Some (Return _, w'') => Some (r, w'')
      | Some (Raise e, w'') => Some (Raise e, w'')
      | Some (Replaced t, w'') => Some (Replaced t, w'')
      end
  end.

(** [l[0]] *)
Definition getitem0 (l : list string) : M string :=
  match l with
  | [] => raise IndexError
  | a :: _ => ret a
  end.

Definition newline : string := String (Ascii.ascii_of_nat 10) EmptyString.

(** ** Logging and the store client *)

Definition logging_debug (msg : string) : M unit := fun w =>
  Some (Return tt, emit (Log DEBUG msg) w).

Definition logging_error (msg : string) : M unit := fun w =>
  Some (Return tt, emit (Log ERROR msg) w).

Definition logging_shutdown : M unit := ret tt.

Definition setup_logging : M unit := ret tt.

Definition cli_add (k v : string) : M bool := fun w =>
  match store w !! k with
  | Some _ => Some (Return false, emit (Add k v false) w)
  | None => Some (Return true, World (<[k:=v]> (store w)) (clock w) (trace w ++ [Add k v true]))
  end.

Definition cli_delete (k : string) : M unit := fun w =>
  Some (Return tt, World (delete k (store w)) (clock w) (trace w ++ [Delete k])).

(** ** The environment of one run *)

Record environment := {
  MEMCACHE : string;             (* os.getenv('MEMCACHE_SERVERS', '127.0.0.1:11211') *)
  KEY : string;                  (* os.getenv('MEMCACHE_KEY', 'mutex-default') *)
  reachable : bool;              (* cli.get_stats() is not empty *)
  utcnow : nat -> string;        (* str(datetime.datetime.utcnow()) at a clock tick *)
  others : nat -> list store_op; (* what the other contenders do, in order,
                                    while this process takes its n-th sleep *)
  format_exc : pyexn -> string   (* traceback.format_exc() *)
}.

(** The answers of the operating system to this process. *)
Record os := {
  os_fork : option Z;
    (* None: fork raises OSError; Some 0: this is the child;
       Some pid: this is the parent of pid *)
  os_execvp : string -> list string -> option termination;
    (* None: execvp raises OSError (no such command); Some t: the command
       runs in place of this process and ends as t *)
  os_waitpid : Z -> option (Z * Z * gmap string string)
    (* None: waitpid raises OSError; Some (child, status, st): it returns
       (child, status), and st is the store as the child left it *)
}.

Section Sherlock.

Variable E : environment.
Variable sys : os.

Definition logdebug {A} (name : string) (func : M A) : M A :=
  logging_debug ("Calling " ++ name);;;
  r <- func;;
  logging_debug ("Returning " ++ name);;;
  ret r.

Definition panic {A} (err : string) : M A :=
  logging_error err;;;
  raise (SystemExit (ExitStr err)).

Definition cli_get_stats : M bool := fun w =>
  Some (Return (reachable E), emit GetStats w).

Definition datetime_utcnow : M string := fun w =>
  Some (Return (utcnow E (clock w)), w).

(** [time.sleep]: the only point where this process is suspended; the other
    contenders act on the store meanwhile. *)
Definition time_sleep (ms : nat) : M unit := fun w =>
  Some (Return tt,
        World (apply_ops (store w) (others E (clock w))) (S (clock w))
              (trace w ++ [Sleep ms])).

(** The fields of a [MemcacheMutex]; its client [self.cli] is the connection
    to the store of the world. *)
Record MemcacheMutex := {
  key : string;
  retry : bool
}.

Definition MemcacheMutex_init (k : string) (r : bool) : M MemcacheMutex :=
  let self := {| key := k; retry := r |} in
  stats <- cli_get_stats;;
  (if negb stats
   then panic ("No reachable memcache servers: " ++ MEMCACHE E)
   else ret tt);;;
  logging_debug ("Using memcache key '" ++ k ++ "'");;;
  logging_debug ("Retry if lock is acquired: " ++ (if r then "True" else "False"));;;
  ret self.

(** The [while] loop of [acquire]; one unit of fuel per call of [cli.add]. *)
Fixpoint acquire_loop (fuel : nat) (self : MemcacheMutex) : M unit :=
  match fuel with
  | O => fun _ => None
  | S fuel' =>
      now <- datetime_utcnow;;
      added <- cli_add (key self) now;;
      if added then ret tt
      else if negb (retry self) then
        logging_debug "Acquired by somebody else and retry disabled.";;;
        raise AcquireDenied
      else
        logging_debug "Retrying";;;
        time_sleep 100;;;
        acquire_loop fuel' self
  end.

Definition acquire (fuel : nat) (self : MemcacheMutex) : M unit :=
  logdebug "acquire" (acquire_loop fuel self).

Definition release (self : MemcacheMutex) : M unit :=
  logdebug "release" (cli_delete (key self)).

Definition fork : M Z := fun w =>
  match os_fork sys with
  | None => Some (Raise OSError, emit Fork w)
  | Some pid => Some (Return pid, emit Fork w)
  end.

Definition execvp (file : string) (args : list string) : M unit := fun w =>
  match os_execvp sys file args with
  | None => Some (Raise OSError, emit (Execvp file args) w)
  | Some t => Some (Replaced t, emit (Execvp file args) w)
  end.

Definition waitpid (pid : Z) : M (Z * Z) := fun w =>
  match os_waitpid sys pid with
  | None => Some (Raise OSError, emit (Waitpid pid) w)
  | Some (child, status, st) =>
      Some (Return (child, status), World st (clock w) (trace w ++ [Waitpid pid]))
  end.

Definition run_process (args : list string) : M Z :=
  let ret0 := 0 in
  pid <- fork;;
  if (pid =? 0)%Z then
    logging_debug "Starting process";;;
    file <- getitem0 args;;
    execvp file args;;;
    ret ret0
  else
    cr <- waitpid pid;;
    logging_debug ("Process " ++ pretty (fst cr) ++ " exited with " ++ pretty (snd cr));;;
    ret (snd cr).

(** [exit(ret)] raises [SystemExit(ret)]. *)
Definition exit {A} (n : Z) : M A := raise (SystemExit (ExitInt n)).

(** The [try] statement of [main], with its two [except] clauses and its
    [finally] clause.  Its value is the value of the variable [ret] after it:
    what [run_process] returned when the body completed, and the initial [0]
    when a handler ran. *)
Definition guard (fuel : nat) (mutex : MemcacheMutex) (args : list string) : M Z :=
  let ret0 := 0 in
  try_finally
    (try_except
       (acquire fuel mutex;;;
        run_process args)
       (fun e =>
          match e with
          | AcquireDenied => Some (ret ret0)
          | _ =>
              if is_Exception e then
                Some (logging_error ("Exception raised on fork/exec:" ++ newline
                                     ++ format_exc E e);;;
                      ret ret0)
              else None
          end))
    (release mutex).

Definition main (fuel : nat) (argv : list string) : M unit :=
  setup_logging;;;
  let args := drop 1 argv in
  a0 <- getitem0 args;;
  let once := (a0 =? "-once")%string in
  let args := if once then drop 1 args else args in
  mutex <- MemcacheMutex_init (KEY E) (negb once);;
  r <- guard fuel mutex args;;
  logging_shutdown;;;
  exit r.

End Sherlock.

(** ** The process as its parent sees it *)

(** How the interpreter ends when [main()] ends with outcome [o]:
    [SystemExit(n)] with an integer makes the C library's [exit(n)], of which
    the parent receives the low byte; [SystemExit(s)] with a string prints
    [s] on stderr and exits with 1; any other exception is printed with its
    traceback and the status is 1. *)
Definition process_termination (o : outcome unit) : termination :=
  match o with
  | Return _ => Exited 0
  | Raise (SystemExit (ExitInt n)) => Exited (Z.land n 255)
  | Raise (SystemExit (ExitStr _)) => Exited 1
  | Raise _ => Exited 1
  | Replaced t => t
  end.

Definition stderr_message (o : outcome unit) : option string :=
  match o with
  | Raise (SystemExit (ExitStr s)) => Some s
  | _ => None
  end.

(** ** Parent and child together

    [os.fork] makes the child a copy of the parent: it has run the same
    prefix of [main] on the same inputs, so the child's run is [main] itself
    with [os.fork] answering 0.  It works on the same store.  The parent does
    nothing between [fork] and [waitpid], so [waitpid] hands the parent the
    store as the child left it and the status word of the child's end. *)
Definition child_os (cmd : string -> list string -> option termination) : os :=
  {| os_fork := Some 0; os_execvp := cmd; os_waitpid := fun _ => None |}.

Definition parent_os (E : environment) (pid : Z)
    (cmd : string -> list string -> option termination)
    (fuel : nat) (argv : list string) (w0 : world) : os :=
  {| os_fork := Some pid;
     os_execvp := cmd;
     os_waitpid := fun p =>
       match main E (child_os cmd) fuel argv w0 with
       | Some (o, wc) => Some (p, wait_status (process_termination o), store wc)
       | None => None
       end |}.

Definition sherlock (E : environment) (pid : Z)
    (cmd : string -> list string -> option termination)
    (fuel : nat) (argv : list string) (w0 : world) : option (outcome unit * world) :=
  main E (parent_os E pid cmd fuel argv w0) fuel argv w0.

(** ** Reading a trace *)

Definition count (p : event -> bool) (tr : list event) : nat :=
  length (List.filter p tr).

Definition is_release_call (ev : event) : bool :=
  match ev with
  | Log DEBUG msg => (msg =? "Calling release")%string
  | _ => false
  end.

Definition is_delete (ev : event) : bool :=
  match ev with Delete _ => true | _ => false end.

Definition is_add (ev : event) : bool :=
  match ev with Add _ _ _ => true | _ => false end.

Definition is_sleep (ev : event) : bool :=
  match ev with Sleep _ => true | _ => false end.

Definition is_fork (ev : event) : bool :=
  match ev with Fork => true | _ => false end.

Definition is_error_log (ev : event) : bool :=
  match ev with Log ERROR _ => true | _ => false end.

(** A lock operation is anything sent to the store about a key. *)
Definition is_lock_op (ev : event) : bool := is_add ev || is_delete ev.

(** ** Concrete runs *)

Definition env0 : environment :=
  {| MEMCACHE := "127.0.0.1:11211";
     KEY := "mutex-default";
     reachable := true;
     utcnow := fun n => "2013-05-17 10:00:00." ++ pretty n;
     others := fun _ => [];
     format_exc := fun _ => "Traceback (most recent call last)" |}.

Definition w_free : world := World ∅ 0 [].

Definition w_held : world := World {["mutex-default" := "2013-05-17 09:59:59"]} 0 [].

(** A machine on which the command [helper] is found and ends with exit
    status [n] (as the test helper does for [exitcode:n]), and no other
    command is found. *)
Definition helper_exit (n : Z) (file : string) (args : list string) : option termination :=
  if (file =? "helper")%string then Some (Exited n) else None.

(** The store as the [n]-th attempt of [acquire] finds it (attempts counted
    from 0), for a caller that starts with store [st] at clock tick [c] and
    whose earlier attempts were all refused: a refused add changes nothing,
    so only the others' operations during the sleeps count. *)
Fixpoint store_at (E : environment) (st : gmap string string) (c n : nat)
    : gmap string string :=
  match n with
  | O => st
  | S n' => store_at E (apply_ops st (others E c)) (S c) n'
  end.

(** What [n] refused attempts, each followed by a retry, leave in the trace. *)
Fixpoint retry_trace (E : environment) (k : string) (c n : nat) : list event :=
  match n with
  | O => []
  | S n' => [Add k (utcnow E c) false; Log DEBUG "Retrying"; Sleep 100]
            ++ retry_trace E k (S c) n'
  end.

(** The world after [n] refused attempts and retries. *)
Definition retried (E : environment) (k : string) (n : nat) (w : world) : world :=
  World (store_at E (store w) (clock w) n) (n + clock w)
        (trace w ++ retry_trace E k (clock w) n).

(** The world after the attempt that finds the key absent. *)
Definition locked (E : environment) (k : string) (w : world) : world :=
  World (<[k := utcnow E (clock w)]> (store w)) (clock w)
        (trace w ++ [Add k (utcnow E (clock w)) true]).

(** The world after [release]. *)
Definition released (k : string) (w : world) : world :=
  World (delete k (store w)) (clock w)
        (trace w ++ [Log DEBUG "Calling release"; Delete k; Log DEBUG "Returning release"]).

(** The world after [MemcacheMutex.__init__] found the store reachable. *)
Definition constructed (k : string) (r : bool) (w : world) : world :=
  World (store w) (clock w)
        (trace w ++ [GetStats; Log DEBUG ("Using memcache key '" ++ k ++ "'");
                     Log DEBUG ("Retry if lock is acquired: " ++
                                (if r then "True" else "False"))]).

(** The line [main] logs when it catches an exception of the body. *)
Definition caught (E : environment) (e : pyexn) : event :=
  Log ERROR ("Exception raised on fork/exec:" ++ newline ++ format_exc E e).

(** The world after [main] has constructed the mutex and [acquire] has
    taken the free lock at its first attempt. *)
Definition acquired_first (E : environment) (r : bool) (w : world) : world :=
  World (<[KEY E := utcnow E (clock w)]> (store w)) (clock w)
        (trace (constructed (KEY E) r w)
           ++ [Log DEBUG "Calling acquire";
               Add (KEY E) (utcnow E (clock w)) true;
               Log DEBUG "Returning acquire"]).

(** What [main] reads from its arguments: the flag, the command, the mutex. *)
Definition flag_once (a : string) : bool := (a =? "-once")%string.

Definition command_of (a : string) (rest : list string) : list string :=
  if flag_once a then rest else a :: rest.

Definition mutex_of (E : environment) (a : string) : MemcacheMutex :=
  {| key := KEY E; retry := negb (flag_once a) |}.

(** Events that are no call of [release], no delete, no fork and no error
    line. *)
Definition acquire_only (ev : event) : bool :=
  negb (is_release_call ev || is_delete ev || is_fork ev || is_error_log ev).

(** Another party deletes key [k] at some time from clock tick [c] on. *)
Definition eventually_deleted (E : environment) (k : string) (c : nat) : Prop :=
  exists n, ODelete k ∈ others E (c + n).

(** The other contenders of this run: at every sleep of this process one of
    them releases the lock and the next one takes it at once. *)
Definition env_handover : environment :=
  {| MEMCACHE := "127.0.0.1:11211";
     KEY := "mutex-default";
     reachable := true;
     utcnow := fun n => "2013-05-17 10:00:00." ++ pretty n;
     others := fun _ => [ODelete "mutex-default"; OAdd "mutex-default" "2013-05-17 10:00:01"];
     format_exc := fun _ => "Traceback (most recent call last)" |}.

(** The holder releases the lock during the third sleep of this process. *)
Definition env_released : environment :=
  {| MEMCACHE := "127.0.0.1:11211";
     KEY := "mutex-default";
     reachable := true;
     utcnow := fun n => "2013-05-17 10:00:00." ++ pretty n;
     others := fun n => if (n =? 2)%nat then [ODelete "mutex-default"] else [];
     format_exc := fun _ => "Traceback (most recent call last)" |}.

Definition env_unreachable : environment :=
  {| MEMCACHE := "10.0.0.9:11211";
     KEY := "mutex-default";
     reachable := false;
     utcnow := fun n => "2013-05-17 10:00:00." ++ pretty n;
     others := fun _ => [];
     format_exc := fun _ => "Traceback (most recent call last)" |}.

Definition mutex_retry : MemcacheMutex := {| key := "mutex-default"; retry := true |}.

Definition mutex_once : MemcacheMutex := {| key := "mutex-default"; retry := false |}.




(** * The test helper, [sherlock_test_helper.py]

    The script sherlock is made to run in the tests: it reads [name:value]
    arguments, writes what they ask for and exits with the status they name.
    What it writes is recorded, in order, as a list of outputs. *)

Module Helper.

Inductive arg_type := TUnicode | TInt.

Inductive value :=
| VUnicode (s : string)
| VInt (n : Z).

Definition type_of (v : value) : arg_type :=
  match v with
  | VUnicode _ => TUnicode
  | VInt _ => TInt
  end.

Definition ARGUMENTS : gmap string arg_type :=
  <["stdout" := TUnicode]> (<["stderr" := TUnicode]> (<["exitcode" := TInt]>
    (<["touchfile" := TUnicode]> ∅))).

(** Every value of a dictionary has the type [ARGUMENTS] gives its name. *)
Definition well_typed (d : gmap string value) : Prop :=
  forall name x, d !! name = Some x -> ARGUMENTS !! name = Some (type_of x).

(** ["{0}".format(arg_type)] *)
Definition type_repr (ty : arg_type) : string :=
  match ty with
  | TUnicode => "<type 'unicode'>"
  | TInt => "<type 'int'>"
  end.

(** What [print] writes for a value. *)
Definition text (v : value) : string :=
  match v with
  | VUnicode s => s
  | VInt n => pretty n
  end.

Definition colon : Ascii.ascii := Ascii.ascii_of_nat 58.

Definition minus : Ascii.ascii := Ascii.ascii_of_nat 45.

(** [name, value = arg.split(':', 1)]: the split at the first colon, [None]
    when there is no colon and the unpacking raises [ValueError]. *)
Fixpoint split_colon (arg : string) : option (string * string) :=
  match arg with
  | EmptyString => None
  | String c rest =>
      if Ascii.eqb c colon then Some (EmptyString, rest)
      else match split_colon rest with
           | Some (name, value) => Some (String c name, value)
           | None => None
           end
  end.

Inductive output :=
| Stdout (line : string)                 (* print(line) *)
| Stderr (line : string)                 (* print(line, file=sys.stderr) *)
| Write (path content : string).         (* open(path, 'w') and write(content) *)

(** How a function of the script ends: it returns, it calls [sys.exit], or
    an exception nobody catches comes out of it. *)
Inductive result (A : Type) :=
| Ok (a : A)
| SysExit (code : exit_arg)
| Uncaught (exception : string).
Arguments Ok {A} a.
Arguments SysExit {A} code.
Arguments Uncaught {A} exception.

Section Script.

(** The conversions of the interpreter and the file system: *)
Variable py_unicode : string -> option string.
  (* unicode(value); None: UnicodeDecodeError, which is a ValueError *)
Variable py_int : string -> option Z.
  (* int(value); None: ValueError *)
Variable writable : string -> bool.
  (* open(path, 'w') succeeds; otherwise it raises IOError *)
Variable maxint : Z.
  (* sys.maxint: beyond it an integer is a long *)

(** [arg_type(value)] *)
Definition convert (ty : arg_type) (v : string) : option value :=
  match ty with
  | TUnicode => VUnicode <$> py_unicode v
  | TInt => VInt <$> py_int v
  end.

(** The [for] loop of [parse_args], from the dictionary built so far. *)
Fixpoint parse_loop (argv : list string) (args : gmap string value)
    : result (gmap string value) :=
  match argv with
  | [] => Ok args
  | arg :: rest =>
      match split_colon arg with
      | None => SysExit (ExitStr ("Invalid argument format: " ++ arg))
      | Some (name, v) =>
          match ARGUMENTS !! name with
          | None => SysExit (ExitStr ("Argument not available: " ++ arg))
          | Some ty =>
              match convert ty v with
              | None =>
                  SysExit (ExitStr ("Invalid argument type, expect " ++ type_repr ty
                                    ++ " for " ++ arg))
              | Some x => parse_loop rest (<[name := x]> args)
              end
          end
      end
  end.

Definition parse_args (argv : list string) : result (gmap string value) :=
  parse_loop (drop 1 argv) ∅.

(** [with open(args['touchfile'], 'w') as fobj: fobj.write(...)] *)
Definition touch (v : value) (out : list output) : result unit * list output :=
  match v with
  | VUnicode path =>
      if writable path then (Ok tt, (out ++ [Write path "sherlock says hi"])%list)
      else (Uncaught "IOError", out)
  | VInt _ => (Uncaught "TypeError", out)
  end.

Definition main (argv : list string) : result unit * list output :=
  match parse_args argv with
  | SysExit code => (SysExit code, [])
  | Uncaught e => (Uncaught e, [])
  | Ok args =>
      let out := [] in
      let out := match args !! "stdout" with
                 | Some v => (out ++ [Stdout (text v)])%list
                 | None => out
                 end in
      let out := match args !! "stderr" with
                 | Some v => (out ++ [Stderr (text v)])%list
                 | None => out
                 end in
      let '(r, out) := match args !! "touchfile" with
                       | Some v => touch v out
                       | None => (Ok tt, out)
                       end in
      match r with
      | Ok _ =>
          match args !! "exitcode" with
          | Some (VInt n) => (SysExit (ExitInt n), out)
          | Some (VUnicode s) => (SysExit (ExitStr s), out)
          | None => (Ok tt, out)
          end
      | _ => (r, out)
      end
  end.

(** The exit status of the script: 0 when [main] returns; for
    [sys.exit(n)], the low byte of [n] when [n] is a plain integer, and 1
    when it is a long, which the interpreter prints instead; 1 for
    [sys.exit] with a message and for an uncaught exception. *)
Definition status (r : result unit) : Z :=
  match r with
  | Ok _ => 0
  | SysExit (ExitInt n) =>
      if bool_decide (- maxint - 1 <= n <= maxint) then Z.land n 255 else 1
  | SysExit (ExitStr _) => 1
  | Uncaught _ => 1
  end.

(** What is wrong with one argument, if anything: the message [parse_args]
    exits with when it comes to it. *)
Definition complaint (arg : string) : option string :=
  match split_colon arg with
  | None => Some ("Invalid argument format: " ++ arg)
  | Some (name, v) =>
      match ARGUMENTS !! name with
      | None => Some ("Argument not available: " ++ arg)
      | Some ty =>
          match convert ty v with
          | None => Some ("Invalid argument type, expect " ++ type_repr ty ++ " for " ++ arg)
          | Some _ => None
          end
      end
  end.

End Script.

(** A file system and an interpreter for concrete runs: [unicode] accepts
    ASCII text only, [int] accepts plain decimal literals with an optional
    minus sign, every path but [/proc/nowhere] can be written, and integers
    have 64 bits. *)
Fixpoint ascii_only (s : string) : bool :=
  match s with
  | EmptyString => true
  | String c rest => (Ascii.nat_of_ascii c <? 128)%nat && ascii_only rest
  end.

Definition unicode_ascii (s : string) : option string :=
  if ascii_only s then Some s else None.

Fixpoint digits (s : string) (acc : Z) : option Z :=
  match s with
  | EmptyString => Some acc
  | String c rest =>
      let d := Ascii.nat_of_ascii c in
      if ((48 <=? d) && (d <=? 57))%nat
      then digits rest (10 * acc + Z.of_nat (d - 48))
      else None
  end.

Definition int_decimal (s : string) : option Z :=
  match s with
  | EmptyString => None
  | String c rest =>
      if Ascii.eqb c minus
      then match rest with
           | EmptyString => None
           | _ => Z.opp <$> digits rest 0
           end
      else digits s 0
  end.

Definition writable_but_proc (path : string) : bool :=
  negb (path =? "/proc/nowhere")%string.

Definition run (argv : list string) : result unit * list output :=
  main unicode_ascii int_decimal writable_but_proc argv.

Definition maxint64 : Z := 2 ^ 63 - 1.

End Helper.

(** The keys the memcached client sends to the server.  Before any
    operation on a key the client library checks it and raises, without
    sending anything, when the key is empty, longer than 250 bytes, or holds
    a space, a control character or DEL (a byte below 33 or equal to 127). *)
Definition key_byte_ok (c : Ascii.ascii) : bool :=
  let n := Ascii.nat_of_ascii c in
  ((33 <=? n) && negb (n =? 127))%nat.

Fixpoint key_bytes_ok (k : string) : bool :=
  match k with
  | EmptyString => true
  | String c rest => key_byte_ok c && key_bytes_ok rest
  end.

Definition client_accepts_key (k : string) : bool :=
  negb (k =? "")%string && (String.length k <=? 250)%nat && key_bytes_ok k.

(** * Properties *)

(** ** The monad and the primitives *)

Lemma count_app p (l1 l2 : list event) : count p (l1 ++ l2) = (count p l1 + count p l2)%nat.
Proof. unfold count. by rewrite List.filter_app, length_app. Qed.

Lemma count_none p (l : list event) :
  forallb (fun ev => negb (p ev)) l = true -> count p l = 0%nat.
Proof.
  unfold count. induction l as [|ev l IH]; simpl; [done|].
  intros [Hev Hl]%andb_prop. destruct (p ev); [done|]. by apply IH.
Qed.

Lemma release_run (m : MemcacheMutex) (w : world) :
  release m w = Some (Return tt, released (key m) w).
Proof.
  unfold release, logdebug, bind, logging_debug, cli_delete, ret, emit, released. simpl.
  by rewrite <- !app_assoc.
Qed.

Lemma init_reachable (E : environment) (k : string) (r : bool) (w : world) :
  reachable E = true ->
  MemcacheMutex_init E k r w = Some (Return {| key := k; retry := r |}, constructed k r w).
Proof.
  intros Hr.
  unfold MemcacheMutex_init, bind, cli_get_stats, logging_debug, ret, emit, constructed.
  simpl. rewrite Hr. simpl. by rewrite <- !app_assoc.
Qed.

Lemma init_unreachable (E : environment) (k : string) (r : bool) (w : world) :
  reachable E = false ->
  MemcacheMutex_init E k r w =
  Some (Raise (SystemExit (ExitStr ("No reachable memcache servers: " ++ MEMCACHE E))),
        World (store w) (clock w)
              (trace w ++ [GetStats;
                           Log ERROR ("No reachable memcache servers: " ++ MEMCACHE E)])).
Proof.
  intros Hr.
  unfold MemcacheMutex_init, bind, cli_get_stats, panic, bind, logging_error, raise, emit.
  simpl. rewrite Hr. simpl. by rewrite <- !app_assoc.
Qed.

(** ** One turn of the loop of [acquire] *)

Lemma acquire_loop_free E fuel m w :
  store w !! key m = None ->
  acquire_loop E (S fuel) m w = Some (Return tt, locked E (key m) w).
Proof.
  intros Hk. simpl. unfold bind, datetime_utcnow, cli_add. simpl. by rewrite Hk.
Qed.

Lemma acquire_loop_denied E fuel m w :
  retry m = false -> is_Some (store w !! key m) ->
  acquire_loop E (S fuel) m w =
  Some (Raise AcquireDenied,
        World (store w) (clock w)
              (trace w ++ [Add (key m) (utcnow E (clock w)) false;
                           Log DEBUG "Acquired by somebody else and retry disabled."])).
Proof.
  intros Hr [v Hk]. simpl. unfold bind, datetime_utcnow, cli_add. simpl.
  rewrite Hk, Hr. simpl. unfold logging_debug, raise, emit. simpl.
  by rewrite <- !app_assoc.
Qed.

Lemma acquire_loop_retry E fuel m w :
  retry m = true -> is_Some (store w !! key m) ->
  acquire_loop E (S fuel) m w = acquire_loop E fuel m (retried E (key m) 1 w).
Proof.
  intros Hr [v Hk]. simpl. unfold bind at 1 2. unfold datetime_utcnow, cli_add. simpl.
  rewrite Hk, Hr. simpl. unfold bind, logging_debug, time_sleep, emit, retried. simpl.
  by rewrite <- !app_assoc.
Qed.

Lemma retried_S E k n w : retried E k (S n) w = retried E k n (retried E k 1 w).
Proof.
  unfold retried. simpl. rewrite <- !app_assoc. simpl.
  by rewrite Nat.add_succ_r.
Qed.

(** [n] refused attempts in a row cost [n] units of fuel and lead to
    [retried n]. *)
Lemma acquire_loop_retries E m n : forall fuel w,
  retry m = true ->
  (forall i, (i < n)%nat -> is_Some (store_at E (store w) (clock w) i !! key m)) ->
  acquire_loop E (n + fuel) m w = acquire_loop E fuel m (retried E (key m) n w).
Proof.
  induction n as [|n IH]; intros fuel w Hr Hheld.
  - unfold retried. simpl. rewrite app_nil_r. by destruct w.
  - rewrite retried_S. rewrite <- IH; [|done|].
    + apply acquire_loop_retry; [done|]. apply (Hheld 0%nat). lia.
    + intros i Hi. apply (Hheld (S i)). lia.
Qed.

(** While the key is there at every attempt, no amount of fuel is enough. *)
Lemma acquire_loop_blocks E m : forall fuel w,
  retry m = true ->
  (forall i, is_Some (store_at E (store w) (clock w) i !! key m)) ->
  acquire_loop E fuel m w = None.
Proof.
  induction fuel as [|fuel IH]; intros w Hr Hheld; [done|].
  rewrite acquire_loop_retry; [|done|apply (Hheld 0%nat)].
  apply IH; [done|]. intros i. apply (Hheld (S i)).
Qed.

(** A run of the loop that ends found the key absent at some attempt. *)
Lemma acquire_loop_ends E m : forall fuel w o w',
  retry m = true ->
  acquire_loop E fuel m w = Some (o, w') ->
  exists n, store_at E (store w) (clock w) n !! key m = None.
Proof.
  induction fuel as [|fuel IH]; intros w o w' Hr Hrun; [done|].
  destruct (store w !! key m) as [v|] eqn:Hk; [|by exists 0%nat].
  rewrite acquire_loop_retry in Hrun by eauto.
  destruct (IH _ _ _ Hr Hrun) as [n Hn]. by exists (S n).
Qed.

(** The least attempt at which a decidable property holds. *)
Lemma least_attempt (P : nat -> Prop) `{!forall n, Decision (P n)} (n : nat) :
  P n -> exists k, P k /\ forall i, (i < k)%nat -> ~ P i.
Proof.
  intros Hn.
  assert (forall m, (exists k, (k < m)%nat /\ P k /\ forall i, (i < k)%nat -> ~ P i)
                    \/ (forall i, (i < m)%nat -> ~ P i)) as Hscan.
  { induction m as [|m [[k (Hk & HP & Hmin)]|Hnone]].
    - right. lia.
    - left. exists k. split; [lia|done].
    - destruct (decide (P m)) as [HP|HnP].
      + left. exists m. split; [lia|done].
      + right. intros i Hi. destruct (decide (i = m)) as [->|]; [done|].
        apply Hnone. lia. }
  destruct (Hscan (S n)) as [[k (_ & HP & Hmin)]|Hnone].
  - by exists k.
  - exfalso. apply (Hnone n); [lia|done].
Qed.

(** Only a delete of another party makes a key disappear. *)
Lemma apply_ops_absent (k : string) (ops : list store_op) : forall st : gmap string string,
  is_Some (st !! k) -> apply_ops st ops !! k = None -> ODelete k ∈ ops.
Proof.
  induction ops as [|op ops IH]; intros st Hin Hout; simpl in Hout.
  - destruct Hin as [v Hv]. congruence.
  - destruct (decide (op = ODelete k)) as [->|Hne]; [by left|].
    right. apply (IH (apply_op st op)); [|done].
    destruct op as [k' v'|k']; simpl.
    + destruct (st !! k') eqn:Hk'; [done|].
      destruct (decide (k' = k)) as [->|Hkk]; [by rewrite lookup_insert_eq|].
      by rewrite lookup_insert_ne.
    + rewrite lookup_delete_ne; [done|]. congruence.
Qed.

Lemma store_at_absent E (k : string) : forall n (st : gmap string string) c,
  is_Some (st !! k) -> store_at E st c n !! k = None ->
  exists i, (i < n)%nat /\ ODelete k ∈ others E (c + i).
Proof.
  induction n as [|n IH]; intros st c Hin Hout; simpl in Hout.
  - destruct Hin as [v Hv]. congruence.
  - destruct (apply_ops st (others E c) !! k) as [v|] eqn:Hk.
    + destruct (IH (apply_ops st (others E c)) (S c)) as [i [Hi Hd]]; [eauto|done|].
      exists (S i). split; [lia|]. by rewrite Nat.add_succ_r.
    + exists 0%nat. split; [lia|]. rewrite Nat.add_0_r.
      by apply (apply_ops_absent k _ st).
Qed.

(** ** The decorated [acquire] *)

Lemma acquire_unfold E fuel m w :
  acquire E fuel m w =
  match acquire_loop E fuel m (emit (Log DEBUG "Calling acquire") w) with
  | None => None
  | Some (Return r, w') => Some (Return r, emit (Log DEBUG "Returning acquire") w')
  | Some (Raise e, w') => Some (Raise e, w')
  | Some (Replaced t, w') => Some (Replaced t, w')
  end.
Proof.
  unfold acquire, logdebug, bind at 1. unfold logging_debug at 1. unfold bind at 1.
  destruct (acquire_loop E fuel m _) as [[[r|e|t] w']|]; done.
Qed.

Lemma retry_trace_sleeps E k : forall n c, count is_sleep (retry_trace E k c n) = n.
Proof.
  induction n as [|n IH]; intros c; [done|].
  simpl. change (S (count is_sleep (retry_trace E k (S c) n)) = S n). by rewrite IH.
Qed.

Lemma retry_trace_sleep_100 E k ev : forall n c,
  ev ∈ retry_trace E k c n -> is_sleep ev = true -> ev = Sleep 100.
Proof.
  induction n as [|n IH]; intros c Hin Hs; simpl in Hin.
  - by apply elem_of_nil in Hin.
  - repeat (apply elem_of_cons in Hin as [->|Hin]; [done|]). by apply (IH (S c)).
Qed.

(** The outcome of [acquire] when attempt [n] is the first to find the key
    absent. *)
Lemma acquire_after E m n fuel w :
  retry m = true ->
  (forall i, (i < n)%nat -> is_Some (store_at E (store w) (clock w) i !! key m)) ->
  store_at E (store w) (clock w) n !! key m = None ->
  (n < fuel)%nat ->
  acquire E fuel m w =
  Some (Return tt,
        World (<[key m := utcnow E (n + clock w)]> (store_at E (store w) (clock w) n))
              (n + clock w)
              (trace w ++ [Log DEBUG "Calling acquire"] ++ retry_trace E (key m) (clock w) n
                 ++ [Add (key m) (utcnow E (n + clock w)) true;
                     Log DEBUG "Returning acquire"])).
Proof.
  intros Hr Hheld Hfree Hfuel.
  rewrite acquire_unfold.
  replace fuel with (n + S (fuel - S n))%nat by lia.
  rewrite acquire_loop_retries; [|done|done].
  rewrite acquire_loop_free; [|done].
  unfold locked, retried, emit. simpl. by rewrite <- !app_assoc.
Qed.

Lemma acquire_denied E m w fuel :
  retry m = false ->
  is_Some (store w !! key m) ->
  acquire E (S fuel) m w =
  Some (Raise AcquireDenied,
        World (store w) (clock w)
              (trace w ++ [Log DEBUG "Calling acquire";
                           Add (key m) (utcnow E (clock w)) false;
                           Log DEBUG "Acquired by somebody else and retry disabled."])).
Proof.
  intros Hr Hk. rewrite acquire_unfold, acquire_loop_denied; [|done|done].
  unfold emit. simpl. by rewrite <- !app_assoc.
Qed.

(** C5: with retry disabled and the key already in the store, [acquire]
    raises [AcquireDenied] at its first attempt, whatever fuel is left: the
    only store operation is the one refused add, nothing is slept, and the
    store and the clock are as before. *)
Theorem acquire_denied_at_once E m w fuel :
  retry m = false ->
  is_Some (store w !! key m) ->
  exists w',
    acquire E (S fuel) m w = Some (Raise AcquireDenied, w')
    /\ trace w' = (trace w ++ [Log DEBUG "Calling acquire";
                               Add (key m) (utcnow E (clock w)) false;
                               Log DEBUG "Acquired by somebody else and retry disabled."])%list
    /\ count is_sleep (trace w') = count is_sleep (trace w)
    /\ count is_add (trace w') = S (count is_add (trace w))
    /\ store w' = store w
    /\ clock w' = clock w.
Proof.
  intros Hr Hk. eexists. split; [by apply acquire_denied|].
  cbn [trace store clock]. split; [done|].
  rewrite !count_app. unfold count. simpl. repeat split; lia.
Qed.

Lemma acquire_denied_at_once_witness :
  acquire env0 1 mutex_once w_held =
  Some (Raise AcquireDenied,
        World (store w_held) 0
              [Log DEBUG "Calling acquire";
               Add "mutex-default" "2013-05-17 10:00:00.0" false;
               Log DEBUG "Acquired by somebody else and retry disabled."]).
Proof.
  destruct (acquire_denied_at_once env0 mutex_once w_held 0) as (w' & Hrun & Htr & _ & _ & Hst & Hck).
  - reflexivity.
  - vm_compute. eauto.
  - rewrite Hrun. destruct w' as [st ck tr]. simpl in *. by subst.
Defined.

(** C6: whenever [acquire] has succeeded, [release] leaves the key absent;
    and [release] on any world at all returns after deleting the key from
    the store, whoever put it there and whatever value it holds. *)
Theorem acquire_release_absent E fuel m w w1 :
  acquire E fuel m w = Some (Return tt, w1) ->
  (exists w2, release m w1 = Some (Return tt, w2) /\ store w2 !! key m = None)
  /\ (forall w0, exists w2,
        release m w0 = Some (Return tt, w2) /\ store w2 = delete (key m) (store w0)).
Proof.
  intros _. split; [|intros w0]; rewrite release_run; eexists; (split; [reflexivity|]);
    simpl; [apply lookup_delete_eq|done].
Qed.

Lemma acquire_release_absent_witness :
  exists w2, release mutex_retry (World {["mutex-default" := "2013-05-17 10:00:00.0"]} 0
                                    [Log DEBUG "Calling acquire";
                                     Add "mutex-default" "2013-05-17 10:00:00.0" true;
                                     Log DEBUG "Returning acquire"])
             = Some (Return tt, w2)
             /\ store w2 !! "mutex-default" = None.
Proof.
  apply (acquire_release_absent env0 1 mutex_retry w_free). reflexivity.
Defined.

(** ** Retrying *)

Lemma acquire_blocks E m w :
  retry m = true ->
  (forall n, is_Some (store_at E (store w) (clock w) n !! key m)) ->
  forall fuel, acquire E fuel m w = None.
Proof.
  intros Hr Hheld fuel. rewrite acquire_unfold.
  by rewrite acquire_loop_blocks.
Qed.

Lemma acquire_ends E m fuel w o w' :
  retry m = true ->
  acquire E fuel m w = Some (o, w') ->
  exists n, store_at E (store w) (clock w) n !! key m = None.
Proof.
  intros Hr. rewrite acquire_unfold.
  destruct (acquire_loop E fuel m _) as [[o1 w1]|] eqn:Hloop; [|done].
  intros _. destruct (acquire_loop_ends E m fuel _ o1 w1 Hr Hloop) as [n Hn].
  by exists n.
Qed.

(** With retry enabled the loop never raises. *)
Lemma acquire_loop_retry_returns E m : forall fuel w o w',
  retry m = true -> acquire_loop E fuel m w = Some (o, w') -> o = Return tt.
Proof.
  induction fuel as [|fuel IH]; intros w o w' Hr Hrun; [done|].
  destruct (store w !! key m) as [v|] eqn:Hk.
  - rewrite acquire_loop_retry in Hrun by eauto. by apply (IH _ _ _ Hr Hrun).
  - rewrite acquire_loop_free in Hrun by done. congruence.
Qed.

Lemma acquire_retry_returns E m fuel w o w' :
  retry m = true -> acquire E fuel m w = Some (o, w') -> o = Return tt.
Proof.
  intros Hr. rewrite acquire_unfold.
  destruct (acquire_loop E fuel m _) as [[o1 w1]|] eqn:Hloop; [|done].
  rewrite (acquire_loop_retry_returns E m _ _ _ _ Hr Hloop). congruence.
Qed.

(** Under [env_handover] the key is there at every attempt. *)
Lemma handover_always_held : forall n (st : gmap string string) c,
  is_Some (st !! "mutex-default") ->
  is_Some (store_at env_handover st c n !! "mutex-default").
Proof.
  induction n as [|n IH]; intros st c Hin; [done|].
  simpl. apply IH. rewrite lookup_delete_eq, lookup_insert_eq. eauto.
Qed.

(** C4 as the specification words it fails: under [env_handover] another
    party deletes the key (at every sleep, even), and a retrying [acquire]
    that finds the key present never returns, since the key is back before
    each of its attempts. *)
Lemma acquire_iff_deleted_counterexample :
  ~ (forall E m w,
       retry m = true ->
       is_Some (store w !! key m) ->
       ((exists fuel w', acquire E fuel m w = Some (Return tt, w'))
        <-> eventually_deleted E (key m) (clock w))).
Proof.
  intros Hclaim.
  destruct (Hclaim env_handover mutex_retry w_held) as [_ Hif].
  - reflexivity.
  - vm_compute. eauto.
  - destruct Hif as (fuel & w' & Hrun).
    + exists 0%nat. simpl. left.
    + rewrite acquire_blocks in Hrun; [done|reflexivity|].
      intros n. apply handover_always_held. vm_compute. eauto.
Qed.

(** What [acquire] has done when attempt [n] was the first to find the key
    absent. *)
Lemma acquire_first_absent E m w n fuel :
  retry m = true ->
  (forall i, (i < n)%nat -> is_Some (store_at E (store w) (clock w) i !! key m)) ->
  store_at E (store w) (clock w) n !! key m = None ->
  (n < fuel)%nat ->
  exists w',
    acquire E fuel m w = Some (Return tt, w')
    /\ store w' !! key m = Some (utcnow E (n + clock w))
    /\ trace w' = (trace w ++ [Log DEBUG "Calling acquire"]
                     ++ retry_trace E (key m) (clock w) n
                     ++ [Add (key m) (utcnow E (n + clock w)) true;
                         Log DEBUG "Returning acquire"])%list
    /\ count is_sleep (trace w') = (count is_sleep (trace w) + n)%nat
    /\ (forall ev, ev ∈ retry_trace E (key m) (clock w) n ->
                   is_sleep ev = true -> ev = Sleep 100).
Proof.
  intros Hr Hheld Hfree Hfuel. eexists. split; [by apply acquire_after|].
  cbn [store trace]. split; [apply lookup_insert_eq|]. split; [done|]. split.
  - rewrite !count_app, retry_trace_sleeps. unfold count. simpl. lia.
  - intros ev. apply retry_trace_sleep_100.
Qed.

(** C4, amended: with retry enabled and the key present, [acquire] returns
    exactly when some attempt finds the key absent.  If [n] is the first such
    attempt, [acquire] returns normally for any fuel above [n], after [n]
    refused adds each followed by one sleep of 100 ms, and the key then holds
    this caller's timestamp; [n] is not bounded.  A run that ends has
    returned normally, and a delete by another party came before it, since
    the key was there at the start.  If every attempt finds the key present,
    [acquire] is still polling whatever the fuel. *)
Theorem acquire_retry_until_absent E m w :
  retry m = true ->
  is_Some (store w !! key m) ->
  ((exists fuel w', acquire E fuel m w = Some (Return tt, w'))
   <-> (exists n, store_at E (store w) (clock w) n !! key m = None))
  /\ (forall n fuel,
        (forall i, (i < n)%nat -> is_Some (store_at E (store w) (clock w) i !! key m)) ->
        store_at E (store w) (clock w) n !! key m = None ->
        (n < fuel)%nat ->
        exists w',
          acquire E fuel m w = Some (Return tt, w')
          /\ store w' !! key m = Some (utcnow E (n + clock w))
          /\ trace w' = (trace w ++ [Log DEBUG "Calling acquire"]
                           ++ retry_trace E (key m) (clock w) n
                           ++ [Add (key m) (utcnow E (n + clock w)) true;
                               Log DEBUG "Returning acquire"])%list
          /\ count is_sleep (trace w') = (count is_sleep (trace w) + n)%nat
          /\ (forall ev, ev ∈ retry_trace E (key m) (clock w) n ->
                         is_sleep ev = true -> ev = Sleep 100))
  /\ (forall fuel o w', acquire E fuel m w = Some (o, w') ->
        o = Return tt /\ eventually_deleted E (key m) (clock w))
  /\ ((forall n, is_Some (store_at E (store w) (clock w) n !! key m)) ->
      forall fuel, acquire E fuel m w = None).
Proof.
  intros Hr Hk.
  split; [split|split; [|split]].
  - intros (fuel & w' & Hrun). by apply (acquire_ends E m fuel w (Return tt) w').
  - intros [n Hn].
    destruct (least_attempt (fun i => store_at E (store w) (clock w) i !! key m = None) n Hn)
      as (k & Hfree & Hmin).
    destruct (acquire_first_absent E m w k (S k)) as (w' & Hrun & _);
      [done| |done|lia|by exists (S k), w'].
    intros i Hi. apply not_eq_None_Some. by apply Hmin.
  - intros n fuel. by apply acquire_first_absent.
  - intros fuel o w' Hrun. split; [by apply (acquire_retry_returns E m fuel w o w')|].
    destruct (acquire_ends E m fuel w o w' Hr Hrun) as [n Hn].
    destruct (store_at_absent E (key m) n (store w) (clock w) Hk Hn) as (i & _ & Hd).
    by exists i.
  - by apply acquire_blocks.
Qed.

Lemma acquire_retry_until_absent_witness :
  exists w',
    acquire env_released 4 mutex_retry w_held = Some (Return tt, w')
    /\ store w' !! "mutex-default" = Some "2013-05-17 10:00:00.3"
    /\ count is_sleep (trace w') = 3%nat.
Proof.
  destruct (acquire_retry_until_absent env_released mutex_retry w_held) as (_ & Hfirst & _).
  - reflexivity.
  - vm_compute. eauto.
  - destruct (Hfirst 3%nat 4%nat) as (w' & Hrun & Hst & _ & Hsl & _).
    + intros i Hi.
      destruct i as [|[|[|i]]]; [vm_compute; eauto..|lia].
    + reflexivity.
    + lia.
    + exists w'. split; [done|]. split; [done|]. exact Hsl.
Defined.

(** ** The ways [run_process] can go *)

Section RunProcess.

Variable sys : os.

Lemma run_process_fork_fails args w :
  os_fork sys = None ->
  run_process sys args w = Some (Raise OSError, emit Fork w).
Proof. intros Hf. unfold run_process, bind, fork. by rewrite Hf. Qed.

Lemma run_process_child_no_command args w :
  os_fork sys = Some 0 -> args = [] ->
  run_process sys args w =
  Some (Raise IndexError,
        World (store w) (clock w) (trace w ++ [Fork; Log DEBUG "Starting process"])).
Proof.
  intros Hf ->. unfold run_process, bind, fork. rewrite Hf. simpl.
  unfold emit. simpl. by rewrite <- !app_assoc.
Qed.

Lemma run_process_child_exec_fails args w file rest :
  os_fork sys = Some 0 -> args = file :: rest -> os_execvp sys file args = None ->
  run_process sys args w =
  Some (Raise OSError,
        World (store w) (clock w)
              (trace w ++ [Fork; Log DEBUG "Starting process"; Execvp file args])).
Proof.
  intros Hf Ha Hx. unfold run_process, bind, fork. rewrite Hf. simpl.
  rewrite Ha in *. simpl. unfold execvp. rewrite Hx.
  unfold emit. simpl. by rewrite <- !app_assoc.
Qed.

Lemma run_process_child_exec args w file rest t :
  os_fork sys = Some 0 -> args = file :: rest -> os_execvp sys file args = Some t ->
  run_process sys args w =
  Some (Replaced t,
        World (store w) (clock w)
              (trace w ++ [Fork; Log DEBUG "Starting process"; Execvp file args])).
Proof.
  intros Hf Ha Hx. unfold run_process, bind, fork. rewrite Hf. simpl.
  rewrite Ha in *. simpl. unfold execvp. rewrite Hx.
  unfold emit. simpl. by rewrite <- !app_assoc.
Qed.

Lemma run_process_wait_fails args w pid :
  os_fork sys = Some pid -> pid <> 0 -> os_waitpid sys pid = None ->
  run_process sys args w =
  Some (Raise OSError, World (store w) (clock w) (trace w ++ [Fork; Waitpid pid])).
Proof.
  intros Hf Hp Hw. unfold run_process, bind, fork. rewrite Hf.
  apply Z.eqb_neq in Hp. rewrite Hp. unfold waitpid. rewrite Hw.
  unfold emit. simpl. by rewrite <- !app_assoc.
Qed.

Lemma run_process_waited args w pid child status st :
  os_fork sys = Some pid -> pid <> 0 -> os_waitpid sys pid = Some (child, status, st) ->
  run_process sys args w =
  Some (Return status,
        World st (clock w)
              (trace w ++ [Fork; Waitpid pid;
                           Log DEBUG ("Process " ++ pretty child ++ " exited with "
                                      ++ pretty status)])).
Proof.
  intros Hf Hp Hw. unfold run_process, bind, fork. rewrite Hf.
  apply Z.eqb_neq in Hp. rewrite Hp. unfold waitpid. rewrite Hw.
  unfold logging_debug, emit. simpl. by rewrite <- !app_assoc.
Qed.

(** [run_process] always comes to an end; what it raises is an [OSError] or
    an [IndexError], and it calls neither [release] nor [cli.delete]. *)
Lemma run_process_total args w :
  exists o w',
    run_process sys args w = Some (o, w')
    /\ (forall e, o = Raise e -> e = OSError \/ e = IndexError)
    /\ count is_release_call (trace w') = count is_release_call (trace w)
    /\ count is_delete (trace w') = count is_delete (trace w).
Proof.
  destruct (os_fork sys) as [pid|] eqn:Hf.
  - destruct (decide (pid = 0)) as [->|Hp].
    + destruct args as [|file rest] eqn:Ha.
      * eexists _, _. split; [by apply run_process_child_no_command|].
        cbn [trace]. rewrite !count_app. unfold count. simpl.
        split; [intros e [= <-]; by right|lia].
      * destruct (os_execvp sys file (file :: rest)) as [t|] eqn:Hx.
        -- eexists _, _. split; [by eapply run_process_child_exec|].
           cbn [trace]. rewrite !count_app. unfold count. simpl.
           split; [done|lia].
        -- eexists _, _. split; [by eapply run_process_child_exec_fails|].
           cbn [trace]. rewrite !count_app. unfold count. simpl.
           split; [intros e [= <-]; by left|lia].
    + destruct (os_waitpid sys pid) as [[[child status] st]|] eqn:Hw.
      * eexists _, _. split; [by eapply run_process_waited|].
        cbn [trace]. rewrite !count_app. unfold count. simpl.
        split; [done|lia].
      * eexists _, _. split; [by eapply run_process_wait_fails|].
        cbn [trace]. rewrite !count_app. unfold count. simpl.
        split; [intros e [= <-]; by left|lia].
  - eexists _, _. split; [by apply run_process_fork_fails|].
    cbn [trace emit]. rewrite !count_app. unfold count. simpl.
    split; [intros e [= <-]; by left|lia].
Qed.

End RunProcess.

(** ** What [acquire] leaves in the trace *)

Lemma acquire_loop_events E m : forall fuel w o w',
  acquire_loop E fuel m w = Some (o, w') ->
  (o = Return tt \/ o = Raise AcquireDenied)
  /\ exists evs, trace w' = (trace w ++ evs)%list /\ forallb acquire_only evs = true.
Proof.
  induction fuel as [|fuel IH]; intros w o w' Hrun; [done|].
  destruct (store w !! key m) as [v|] eqn:Hk.
  - destruct (retry m) eqn:Hr.
    + rewrite acquire_loop_retry in Hrun by eauto.
      destruct (IH _ _ _ Hrun) as [Ho (evs & Htr & Hevs)]. split; [done|].
      eexists. rewrite Htr. unfold retried. simpl. rewrite <- app_assoc.
      split; [reflexivity|]. simpl. by rewrite Hevs.
    + rewrite acquire_loop_denied in Hrun by eauto. injection Hrun as <- <-.
      split; [by right|]. eexists. split; [reflexivity|done].
  - rewrite acquire_loop_free in Hrun by done. injection Hrun as <- <-.
    split; [by left|]. eexists. split; [reflexivity|done].
Qed.

Lemma acquire_events E m fuel w o w' :
  acquire E fuel m w = Some (o, w') ->
  (o = Return tt \/ o = Raise AcquireDenied)
  /\ exists evs, trace w' = (trace w ++ evs)%list /\ forallb acquire_only evs = true.
Proof.
  rewrite acquire_unfold.
  destruct (acquire_loop E fuel m _) as [[o1 w1]|] eqn:Hloop; [|done].
  destruct (acquire_loop_events E m _ _ _ _ Hloop) as [Ho (evs & Htr & Hevs)].
  destruct Ho as [-> | ->]; intros [= <- <-].
  - split; [by left|]. eexists. unfold emit in *. simpl in *. rewrite Htr.
    rewrite <- !app_assoc. split; [reflexivity|].
    simpl. rewrite forallb_app, Hevs. done.
  - split; [by right|]. eexists. unfold emit in *. simpl in *. rewrite Htr.
    rewrite <- !app_assoc. split; [reflexivity|]. simpl. by rewrite Hevs.
Qed.

Lemma acquire_only_count p evs :
  (forall ev, acquire_only ev = true -> p ev = false) ->
  forallb acquire_only evs = true -> count p evs = 0%nat.
Proof.
  intros Hp Hevs. apply count_none.
  induction evs as [|ev evs IH]; [done|].
  simpl in *. apply andb_prop in Hevs as [Hev Hevs].
  rewrite (Hp ev Hev). simpl. by apply IH.
Qed.

Lemma acquire_counts E m fuel w o w' :
  acquire E fuel m w = Some (o, w') ->
  count is_release_call (trace w') = count is_release_call (trace w)
  /\ count is_delete (trace w') = count is_delete (trace w)
  /\ count is_fork (trace w') = count is_fork (trace w).
Proof.
  intros Hrun. destruct (acquire_events _ _ _ _ _ _ Hrun) as [_ (evs & -> & Hevs)].
  rewrite !count_app.
  rewrite !(acquire_only_count _ evs); [lia|..]; try done;
    intros ev; unfold acquire_only;
    destruct (is_release_call ev), (is_delete ev), (is_fork ev); done.
Qed.

(** ** The ways the guard can go *)

Section Guard.

Variable E : environment.
Variable sys : os.

Lemma guard_blocked fuel m args w :
  acquire E fuel m w = None -> guard E sys fuel m args w = None.
Proof. intros Ha. unfold guard, try_finally, try_except, bind. by rewrite Ha. Qed.

Lemma guard_denied fuel m args w w2 :
  acquire E fuel m w = Some (Raise AcquireDenied, w2) ->
  guard E sys fuel m args w = Some (Return 0, released (key m) w2).
Proof.
  intros Ha. unfold guard, try_finally, try_except, bind. rewrite Ha.
  unfold ret. by rewrite release_run.
Qed.

Lemma guard_returned fuel m args w w2 r w3 :
  acquire E fuel m w = Some (Return tt, w2) ->
  run_process sys args w2 = Some (Return r, w3) ->
  guard E sys fuel m args w = Some (Return r, released (key m) w3).
Proof.
  intros Ha Hp. unfold guard, try_finally, try_except, bind. rewrite Ha, Hp.
  by rewrite release_run.
Qed.

Lemma guard_raised fuel m args w w2 e w3 :
  acquire E fuel m w = Some (Return tt, w2) ->
  run_process sys args w2 = Some (Raise e, w3) ->
  guard E sys fuel m args w = Some (Return 0, released (key m) (emit (caught E e) w3)).
Proof.
  intros Ha Hp.
  destruct (run_process_total sys args w2) as (o & w3' & Hp' & Hexn & _).
  rewrite Hp in Hp'. injection Hp' as <- <-.
  unfold guard, try_finally, try_except, bind. rewrite Ha, Hp.
  destruct (Hexn e eq_refl) as [-> | ->]; cbn [is_Exception];
    unfold bind, logging_error, ret; by rewrite release_run.
Qed.

Lemma guard_replaced fuel m args w w2 t w3 :
  acquire E fuel m w = Some (Return tt, w2) ->
  run_process sys args w2 = Some (Replaced t, w3) ->
  guard E sys fuel m args w = Some (Replaced t, w3).
Proof.
  intros Ha Hp. unfold guard, try_finally, try_except, bind. by rewrite Ha, Hp.
Qed.

(** [main] once the store has answered and the mutex exists. *)
Lemma main_constructed fuel prog a rest w :
  reachable E = true ->
  main E sys fuel (prog :: a :: rest) w =
  match guard E sys fuel (mutex_of E a) (command_of a rest)
              (constructed (KEY E) (negb (flag_once a)) w) with
  | None => None
  | Some (Return r, w') => Some (Raise (SystemExit (ExitInt r)), w')
  | Some (Raise e, w') => Some (Raise e, w')
  | Some (Replaced t, w') => Some (Replaced t, w')
  end.
Proof.
  intros Hr. unfold main, bind at 1 2. cbn [setup_logging ret drop getitem0].
  unfold bind at 1. rewrite init_reachable by done.
  unfold bind at 1. unfold mutex_of, command_of, flag_once.
  destruct (a =? "-once")%string; cbn [drop];
    destruct (guard _ _ _ _ _ _) as [[[r|e|t] w']|]; done.
Qed.

Lemma main_unreachable fuel prog a rest w :
  reachable E = false ->
  main E sys fuel (prog :: a :: rest) w =
  Some (Raise (SystemExit (ExitStr ("No reachable memcache servers: " ++ MEMCACHE E))),
        World (store w) (clock w)
              (trace w ++ [GetStats;
                           Log ERROR ("No reachable memcache servers: " ++ MEMCACHE E)])).
Proof.
  intros Hr. unfold main, bind at 1 2. cbn [setup_logging ret drop getitem0].
  unfold bind at 1. by rewrite init_unreachable.
Qed.

End Guard.

(** ** The claims about the guard and the program *)

(** Counting events in a trace that grew by a known list of events. *)
Ltac count_lia :=
  unfold emit, released, constructed, caught in *; cbn [trace] in *;
  rewrite ?count_app in *; unfold count in *; simpl in *; lia.

Lemma released_counts k w :
  count is_release_call (trace (released k w)) = S (count is_release_call (trace w))
  /\ count is_delete (trace (released k w)) = S (count is_delete (trace w))
  /\ count is_fork (trace (released k w)) = count is_fork (trace w).
Proof.
  unfold released. cbn [trace]. rewrite !count_app. unfold count. simpl. lia.
Qed.

Lemma guard_releases_once E sys fuel m args w o w' :
  guard E sys fuel m args w = Some (o, w') ->
  (forall t, o <> Replaced t) ->
  count is_release_call (trace w') = S (count is_release_call (trace w))
  /\ count is_delete (trace w') = S (count is_delete (trace w)).
Proof.
  intros Hg Ho.
  destruct (acquire E fuel m w) as [[o1 w2]|] eqn:Ha;
    [|by rewrite guard_blocked in Hg].
  destruct (acquire_counts _ _ _ _ _ _ Ha) as (Hc1 & Hc2 & _).
  destruct (acquire_events _ _ _ _ _ _ Ha) as [[-> | ->] _].
  - destruct (run_process_total sys args w2) as (o2 & w3 & Hp & _ & Hp1 & Hp2).
    destruct o2 as [r|e|t].
    + rewrite (guard_returned _ _ _ _ _ _ _ _ _ Ha Hp) in Hg. injection Hg as <- <-.
      destruct (released_counts (key m) w3) as (-> & -> & _). lia.
    + rewrite (guard_raised _ _ _ _ _ _ _ _ _ Ha Hp) in Hg. injection Hg as <- <-.
      destruct (released_counts (key m) (emit (caught E e) w3)) as (-> & -> & _).
      count_lia.
    + rewrite (guard_replaced _ _ _ _ _ _ _ _ _ Ha Hp) in Hg. injection Hg as <- <-.
      by destruct (Ho t).
  - rewrite (guard_denied _ _ _ _ _ _ _ Ha) in Hg. injection Hg as <- <-.
    destruct (released_counts (key m) w2) as (-> & -> & _). lia.
Qed.

(** C3: whenever the guard comes to an end in this process (the child ran,
    spawning or waiting failed, the lock was denied; the one excluded case is
    a child whose image was replaced by the command, where the Python program
    is gone), [release] has been called exactly once in between, and
    exactly one delete has been sent to the store. *)
Theorem release_exactly_once E sys fuel m args w o w' :
  guard E sys fuel m args w = Some (o, w') ->
  (forall t, o <> Replaced t) ->
  count is_release_call (trace w') = S (count is_release_call (trace w))
  /\ count is_delete (trace w') = S (count is_delete (trace w)).
Proof. apply guard_releases_once. Qed.

Lemma release_exactly_once_witness :
  exists o w',
    guard env0 (child_os (helper_exit 7)) 1 mutex_retry ["no-such-command"] w_free
    = Some (o, w')
    /\ count is_release_call (trace w') = 1%nat
    /\ count is_delete (trace w') = 1%nat.
Proof.
  eexists _, _. split; [vm_compute; reflexivity|].
  apply (release_exactly_once env0 (child_os (helper_exit 7)) 1 mutex_retry
           ["no-such-command"] w_free (Return 0)).
  - vm_compute. reflexivity.
  - discriminate.
Defined.

(** The same for the program: once the mutex is constructed, a [main] that
    ends has called [release] exactly once. *)
Lemma main_releases_once E sys fuel prog a rest w o w' :
  reachable E = true ->
  main E sys fuel (prog :: a :: rest) w = Some (o, w') ->
  (forall t, o <> Replaced t) ->
  count is_release_call (trace w') = S (count is_release_call (trace w)).
Proof.
  intros Hr Hm Ho. rewrite main_constructed in Hm by done.
  destruct (guard _ _ _ _ _ _) as [[og wg]|] eqn:Hg; [|done].
  destruct (guard_releases_once _ _ _ _ _ _ _ _ Hg) as [Hc _].
  - intros t ->. injection Hm as <- <-. by destruct (Ho t).
  - assert (wg = w') as <- by (destruct og; by injection Hm).
    rewrite Hc. count_lia.
Qed.

(** C7: when no memcached server answers at startup and a command was given,
    [main] ends with [SystemExit] carrying the message "No reachable memcache
    servers: ...": the interpreter prints it and exits with status 1.  The
    message was logged as an error, the only thing sent to the store is the
    health check, and no add and no delete was issued: the store is as it
    was. *)
Theorem unreachable_store_aborts E sys fuel prog a rest w :
  reachable E = false ->
  exists msg w',
    main E sys fuel (prog :: a :: rest) w = Some (Raise (SystemExit (ExitStr msg)), w')
    /\ msg = "No reachable memcache servers: " ++ MEMCACHE E
    /\ (exists c, process_termination (Raise (SystemExit (ExitStr msg))) = Exited c /\ c <> 0)
    /\ stderr_message (Raise (SystemExit (ExitStr msg))) = Some msg
    /\ trace w' = (trace w ++ [GetStats; Log ERROR msg])%list
    /\ count is_lock_op (trace w') = count is_lock_op (trace w)
    /\ store w' = store w.
Proof.
  intros Hr. eexists _, _. split; [by apply main_unreachable|].
  split; [done|]. split; [by exists 1|]. split; [done|]. split; [done|].
  split; [|done]. count_lia.
Qed.

Lemma unreachable_store_aborts_witness :
  exists w',
    main env_unreachable (child_os (helper_exit 7)) 1 ["sherlock.py"; "helper"] w_held
    = Some (Raise (SystemExit (ExitStr "No reachable memcache servers: 10.0.0.9:11211")), w')
    /\ store w' = store w_held.
Proof.
  destruct (unreachable_store_aborts env_unreachable (child_os (helper_exit 7)) 1
              "sherlock.py" "helper" [] w_held) as (msg & w' & Hm & -> & _ & _ & _ & _ & Hst).
  - reflexivity.
  - by exists w'.
Defined.

(** The run of [main] when [acquire] raises [AcquireDenied]. *)
Lemma denied_skips_child_aux E sys fuel prog a rest w w2 :
  reachable E = true ->
  acquire E fuel (mutex_of E a) (constructed (KEY E) (negb (flag_once a)) w)
  = Some (Raise AcquireDenied, w2) ->
  main E sys fuel (prog :: a :: rest) w
  = Some (Raise (SystemExit (ExitInt 0)), released (KEY E) w2)
  /\ count is_fork (trace (released (KEY E) w2)) = count is_fork (trace w).
Proof.
  intros Hr Ha. rewrite main_constructed by done.
  rewrite (guard_denied _ _ _ _ _ _ _ Ha). split; [done|].
  destruct (released_counts (KEY E) w2) as (_ & _ & ->).
  destruct (acquire_counts _ _ _ _ _ _ Ha) as (_ & _ & ->).
  count_lia.
Qed.

(** C9: when [acquire] raises [AcquireDenied], [main] ends with [exit(0)],
    so the exit status is 0, and between the start of [main] and its end no
    fork was made: the child is never spawned. *)
Theorem denied_skips_child E sys fuel prog a rest w w2 :
  reachable E = true ->
  acquire E fuel (mutex_of E a) (constructed (KEY E) (negb (flag_once a)) w)
  = Some (Raise AcquireDenied, w2) ->
  main E sys fuel (prog :: a :: rest) w
  = Some (Raise (SystemExit (ExitInt 0)), released (KEY E) w2)
  /\ process_termination (Raise (SystemExit (ExitInt 0))) = Exited 0
  /\ count is_fork (trace (released (KEY E) w2)) = count is_fork (trace w).
Proof.
  intros Hr Ha.
  destruct (denied_skips_child_aux E sys fuel prog a rest w w2 Hr Ha) as [Hm Hf].
  done.
Qed.

Lemma denied_skips_child_witness :
  exists w',
    main env0 (parent_os env0 4242 (helper_exit 7) 1 ["sherlock.py"; "-once"; "helper"] w_held)
         1 ["sherlock.py"; "-once"; "helper"] w_held
    = Some (Raise (SystemExit (ExitInt 0)), w')
    /\ count is_fork (trace w') = 0%nat.
Proof.
  eexists. 
  destruct (denied_skips_child env0
              (parent_os env0 4242 (helper_exit 7) 1 ["sherlock.py"; "-once"; "helper"] w_held)
              1 "sherlock.py" "-once" ["helper"] w_held
              (World (store w_held) 0
                 [GetStats; Log DEBUG "Using memcache key 'mutex-default'";
                  Log DEBUG "Retry if lock is acquired: False";
                  Log DEBUG "Calling acquire";
                  Add "mutex-default" "2013-05-17 10:00:00.0" false;
                  Log DEBUG "Acquired by somebody else and retry disabled."]))
    as (Hm & _ & Hf).
  - reflexivity.
  - vm_compute. reflexivity.
  - split; [exact Hm|exact Hf].
Defined.

(** C10: with no argument at all, [args[0]] raises [IndexError] and nothing
    catches it: [main] ends with that exception in the world it started in,
    so nothing was logged, no mutex was constructed and nothing was sent to
    the store; the interpreter exits with status 1. *)
Theorem no_arguments_index_error E sys fuel prog w :
  main E sys fuel [prog] w = Some (Raise IndexError, w)
  /\ main E sys fuel [] w = Some (Raise IndexError, w)
  /\ process_termination (Raise IndexError) = Exited 1.
Proof. done. Qed.

(** The record of the holder does not survive a refused contender: the
    statement that it does fails at [env0], with [-once] and the key held by
    someone else, since the guard's [finally] clause calls [release], which
    deletes the holder's record. *)
Lemma held_lock_untouched_counterexample :
  ~ (forall E sys fuel prog rest w o w',
       reachable E = true ->
       is_Some (store w !! KEY E) ->
       main E sys fuel (prog :: "-once" :: rest) w = Some (o, w') ->
       store w' !! KEY E = store w !! KEY E).
Proof.
  intros Hclaim.
  specialize (Hclaim env0 (child_os (helper_exit 7)) 1%nat "sherlock.py" ["helper"] w_held
                (Raise (SystemExit (ExitInt 0)))
                (World ∅ 0
                   [GetStats; Log DEBUG "Using memcache key 'mutex-default'";
                    Log DEBUG "Retry if lock is acquired: False";
                    Log DEBUG "Calling acquire";
                    Add "mutex-default" "2013-05-17 10:00:00.0" false;
                    Log DEBUG "Acquired by somebody else and retry disabled.";
                    Log DEBUG "Calling release"; Delete "mutex-default";
                    Log DEBUG "Returning release"])).
  assert (@None string = Some "2013-05-17 09:59:59") as Habs; [|discriminate Habs].
  apply Hclaim.
  - reflexivity.
  - vm_compute. eauto.
  - vm_compute. reflexivity.
Qed.

(** The same in every environment: with [-once] and the key already in the
    store, [main] ends (one unit of fuel is enough) and the store it leaves
    is the store it found with the key deleted.  [acquire] sits inside the
    [try] whose [finally] releases, so the contender that was refused
    removes the record of the holder, which is still running; every other
    key is as it was. *)
Theorem held_lock_deleted E sys fuel prog rest w :
  reachable E = true ->
  is_Some (store w !! KEY E) ->
  exists w',
    main E sys (S fuel) (prog :: "-once" :: rest) w = Some (Raise (SystemExit (ExitInt 0)), w')
    /\ store w' = delete (KEY E) (store w)
    /\ store w' !! KEY E = None
    /\ (forall k, k <> KEY E -> store w' !! k = store w !! k).
Proof.
  intros Hr Hk.
  pose proof (acquire_denied E (mutex_of E "-once")
                (constructed (KEY E) (negb (flag_once "-once")) w) fuel eq_refl Hk) as Ha.
  destruct (denied_skips_child_aux E sys (S fuel) prog "-once" rest w _ Hr Ha) as [Hm _].
  eexists. split; [exact Hm|]. cbn [released constructed store].
  split; [done|]. split; [apply lookup_delete_eq|].
  intros k Hne. by rewrite lookup_delete_ne.
Qed.

Lemma held_lock_deleted_witness :
  exists w',
    main env0 (child_os (helper_exit 7)) 1 ["sherlock.py"; "-once"; "helper"] w_held
    = Some (Raise (SystemExit (ExitInt 0)), w')
    /\ store w' !! "mutex-default" = None.
Proof.
  destruct (held_lock_deleted env0 (child_os (helper_exit 7)) 0 "sherlock.py" ["helper"] w_held)
    as (w' & Hm & _ & Habsent & _).
  - reflexivity.
  - vm_compute. eauto.
  - by exists w'.
Defined.

(** C2 at a lock held by another contender: the program is started with
    [-once] while the key holds the holder's record.  [acquire] is refused,
    no child is forked and the program exits with 0, but the key is absent
    from the store afterwards: the refused contender has deleted the record
    of the holder instead of leaving it untouched. *)
Theorem denied_contender_deletes_holder :
  store w_held !! KEY env0 = Some "2013-05-17 09:59:59"
  /\ exists w',
       sherlock env0 4242 (helper_exit 7) 1 ["sherlock.py"; "-once"; "helper"] w_held
       = Some (Raise (SystemExit (ExitInt 0)), w')
       /\ count is_fork (trace w') = 0%nat
       /\ count is_delete (trace w') = 1%nat
       /\ store w' !! KEY env0 = None
       /\ store w' !! KEY env0 <> store w_held !! KEY env0.
Proof.
  split; [vm_compute; reflexivity|].
  eexists. split; [vm_compute; reflexivity|].
  split; [reflexivity|]. split; [reflexivity|]. split; [vm_compute; reflexivity|].
  vm_compute. discriminate.
Qed.

(** The run of [main] when the lock was acquired and [run_process] raised. *)
Lemma main_spawn_error E sys fuel prog a rest w w2 e w3 :
  reachable E = true ->
  acquire E fuel (mutex_of E a) (constructed (KEY E) (negb (flag_once a)) w)
  = Some (Return tt, w2) ->
  run_process sys (command_of a rest) w2 = Some (Raise e, w3) ->
  main E sys fuel (prog :: a :: rest) w
  = Some (Raise (SystemExit (ExitInt 0)), released (KEY E) (emit (caught E e) w3)).
Proof.
  intros Hr Ha Hp. rewrite main_constructed by done.
  by rewrite (guard_raised _ _ _ _ _ _ _ _ _ Ha Hp).
Qed.

(** C8: when the lock was acquired and [run_process] raises (fork, exec or
    wait failed, or there is no command to look up), [main] catches the
    exception, logs it as an error, calls [release], which deletes the key,
    and ends with [exit(0)]: the exit status is 0. *)
Theorem spawn_error_absorbed E sys fuel prog a rest w w2 e w3 :
  reachable E = true ->
  acquire E fuel (mutex_of E a) (constructed (KEY E) (negb (flag_once a)) w)
  = Some (Return tt, w2) ->
  run_process sys (command_of a rest) w2 = Some (Raise e, w3) ->
  exists w',
    main E sys fuel (prog :: a :: rest) w = Some (Raise (SystemExit (ExitInt 0)), w')
    /\ process_termination (Raise (SystemExit (ExitInt 0))) = Exited 0
    /\ trace w' = (trace w3 ++ [caught E e; Log DEBUG "Calling release"; Delete (KEY E);
                                Log DEBUG "Returning release"])%list
    /\ store w' = delete (KEY E) (store w3)
    /\ store w' !! KEY E = None.
Proof.
  intros Hr Ha Hp. eexists. split; [by eapply main_spawn_error|].
  split; [done|]. unfold released, emit. cbn [trace store].
  rewrite <- app_assoc. split; [done|]. split; [done|]. apply lookup_delete_eq.
Qed.

Lemma spawn_error_absorbed_witness :
  exists w',
    main env0 (child_os (helper_exit 7)) 1 ["sherlock.py"; "no-such-command"] w_free
    = Some (Raise (SystemExit (ExitInt 0)), w')
    /\ store w' !! "mutex-default" = None.
Proof.
  destruct (spawn_error_absorbed env0 (child_os (helper_exit 7)) 1
              "sherlock.py" "no-such-command" [] w_free
              (World {["mutex-default" := "2013-05-17 10:00:00.0"]} 0
                 [GetStats; Log DEBUG "Using memcache key 'mutex-default'";
                  Log DEBUG "Retry if lock is acquired: True";
                  Log DEBUG "Calling acquire";
                  Add "mutex-default" "2013-05-17 10:00:00.0" true;
                  Log DEBUG "Returning acquire"])
              OSError
              (World {["mutex-default" := "2013-05-17 10:00:00.0"]} 0
                 [GetStats; Log DEBUG "Using memcache key 'mutex-default'";
                  Log DEBUG "Retry if lock is acquired: True";
                  Log DEBUG "Calling acquire";
                  Add "mutex-default" "2013-05-17 10:00:00.0" true;
                  Log DEBUG "Returning acquire";
                  Fork; Log DEBUG "Starting process";
                  Execvp "no-such-command" ["no-such-command"]]))
    as (w' & Hm & _ & _ & _ & Habsent).
  - reflexivity.
  - vm_compute. reflexivity.
  - vm_compute. reflexivity.
  - by exists w'.
Defined.

(** ** Parent and child together *)

Lemma low_byte_of_exit_status c : Z.land (wait_status (Exited c)) 255 = 0.
Proof.
  unfold wait_status. generalize (Z.land c 255). intros x.
  change 255 with (Z.ones 8). rewrite Z.land_ones by lia.
  rewrite Z.shiftl_mul_pow2 by lia. apply Z.mod_mul. lia.
Qed.

Section Together.

Variable E : environment.
Variable pid : Z.
Variable cmd : string -> list string -> option termination.
Variables (fuel : nat) (prog a : string) (rest : list string) (w : world).
Variables (file : string) (l : list string).

Hypothesis store_reachable : reachable E = true.
Hypothesis in_parent : pid <> 0.
Hypothesis lock_free : store w !! KEY E = None.
Hypothesis command : command_of a rest = file :: l.

Lemma free_lock_acquired :
  acquire E (S fuel) (mutex_of E a) (constructed (KEY E) (negb (flag_once a)) w)
  = Some (Return tt, acquired_first E (negb (flag_once a)) w).
Proof.
  rewrite acquire_unfold, acquire_loop_free by done.
  unfold locked, emit, acquired_first, constructed. cbn [store clock trace mutex_of key].
  by rewrite <- !app_assoc.
Qed.

(** The child when the command is found: its image is replaced. *)
Lemma child_replaced t :
  cmd file (file :: l) = Some t ->
  exists wc,
    main E (child_os cmd) (S fuel) (prog :: a :: rest) w = Some (Replaced t, wc)
    /\ store wc = store (acquired_first E (negb (flag_once a)) w).
Proof.
  intros Hx. rewrite main_constructed by done.
  erewrite guard_replaced; [eexists; split; [reflexivity|]| apply free_lock_acquired |].
  2: { eapply run_process_child_exec; [done|exact command|]. by rewrite <- command in Hx. }
  done.
Qed.

(** The child when the command is not found: it runs the rest of [main]. *)
Lemma child_exec_failed :
  cmd file (file :: l) = None ->
  exists wc,
    main E (child_os cmd) (S fuel) (prog :: a :: rest) w = Some (Raise (SystemExit (ExitInt 0)), wc)
    /\ store wc = delete (KEY E) (store (acquired_first E (negb (flag_once a)) w)).
Proof.
  intros Hx. rewrite main_constructed by done.
  erewrite guard_raised; [eexists; split; [reflexivity|]| apply free_lock_acquired |].
  2: { eapply run_process_child_exec_fails; [done|exact command|].
       by rewrite <- command in Hx. }
  done.
Qed.

(** The parent, given how the child went. *)
Lemma parent_waited o wc :
  main E (child_os cmd) (S fuel) (prog :: a :: rest) w = Some (o, wc) ->
  exists w',
    sherlock E pid cmd (S fuel) (prog :: a :: rest) w
    = Some (Raise (SystemExit (ExitInt (wait_status (process_termination o)))), w')
    /\ store w' = delete (KEY E) (store wc).
Proof.
  intros Hc. unfold sherlock. rewrite main_constructed by done.
  erewrite guard_returned; [eexists; split; [reflexivity|]| apply free_lock_acquired |].
  2: { eapply run_process_waited; [done|done|].
       cbn [parent_os os_waitpid]. by rewrite Hc. }
  done.
Qed.

(** A command that ends with exit code [c]: the program passes the whole
    status word to [exit], and its own exit status is the low byte of that
    word, which is 0 whatever [c] is. *)
Lemma exited_child_status_lost c :
  cmd file (file :: l) = Some (Exited c) ->
  exists w',
    sherlock E pid cmd (S fuel) (prog :: a :: rest) w
    = Some (Raise (SystemExit (ExitInt (wait_status (Exited c)))), w')
    /\ process_termination (Raise (SystemExit (ExitInt (wait_status (Exited c))))) = Exited 0
    /\ store w' !! KEY E = None.
Proof.
  intros Hx. destruct (child_replaced _ Hx) as (wc & Hc & _).
  destruct (parent_waited _ _ Hc) as (w' & Hm & Hst).
  exists w'. split; [exact Hm|]. split.
  - cbn [process_termination]. by rewrite low_byte_of_exit_status.
  - rewrite Hst. apply lookup_delete_eq.
Qed.

(** A command that does not exist: the child catches the error, releases the
    lock and exits with 0; the parent sees status 0, releases again and exits
    with 0. *)
Lemma missing_command_exit_0 :
  cmd file (file :: l) = None ->
  exists w',
    sherlock E pid cmd (S fuel) (prog :: a :: rest) w = Some (Raise (SystemExit (ExitInt 0)), w')
    /\ store w' !! KEY E = None.
Proof.
  intros Hx. destruct (child_exec_failed Hx) as (wc & Hc & _).
  destruct (parent_waited _ _ Hc) as (w' & Hm & Hst).
  exists w'. split; [exact Hm|]. rewrite Hst. apply lookup_delete_eq.
Qed.

End Together.

(** C1 at a command that exits with status 7: [os.waitpid] returns the
    status word 1792 (7 in the high byte), [main] passes it to [exit]
    unchanged, and the exit status of the program is the low byte of 1792,
    which is 0 and not 7. *)
Theorem exit_status_of_child_7 :
  exists w',
    sherlock env0 4242 (helper_exit 7) 1 ["sherlock.py"; "helper"; "exitcode:7"] w_free
    = Some (Raise (SystemExit (ExitInt 1792)), w')
    /\ wait_status (Exited 7) = 1792
    /\ process_termination (Raise (SystemExit (ExitInt 1792))) = Exited 0
    /\ Exited 0 <> Exited 7.
Proof.
  eexists. split; [vm_compute; reflexivity|]. split; [reflexivity|].
  split; [reflexivity|discriminate].
Qed.

(** * Further properties of [sherlock.py] *)

(** ** What [acquire] does to the store *)

Lemma retried_0 E k w : retried E k 0 w = w.
Proof. unfold retried. simpl. rewrite app_nil_r. by destruct w. Qed.

(** Every run of the loop that ends is [n] refused attempts followed either
    by the attempt that takes the lock or, without retry and at once, by the
    denial. *)
Lemma acquire_loop_effect E m : forall fuel w o w',
  acquire_loop E fuel m w = Some (o, w') ->
  exists n,
    (o = Return tt /\ w' = locked E (key m) (retried E (key m) n w))
    \/ (o = Raise AcquireDenied /\ retry m = false /\ n = 0%nat
        /\ store w' = store w /\ clock w' = clock w
        /\ trace w' = (trace w ++ [Add (key m) (utcnow E (clock w)) false;
                                   Log DEBUG "Acquired by somebody else and retry disabled."])%list).
Proof.
  induction fuel as [|fuel IH]; intros w o w' Hrun; [done|].
  destruct (store w !! key m) as [v|] eqn:Hk.
  - destruct (retry m) eqn:Hr.
    + rewrite acquire_loop_retry in Hrun by eauto.
      destruct (IH _ _ _ Hrun) as [n [[-> ->]|(_ & Hfalse & _)]]; [|congruence].
      exists (S n). left. by rewrite (retried_S E (key m) n w).
    + rewrite acquire_loop_denied in Hrun by eauto. injection Hrun as <- <-.
      exists 0%nat. right. done.
  - rewrite acquire_loop_free in Hrun by done. injection Hrun as <- <-.
    exists 0%nat. left. by rewrite retried_0.
Qed.

(** After an [acquire] that returned, the key holds the timestamp of the
    moment it returned. *)
Lemma acquire_returned_store E m fuel w w' :
  acquire E fuel m w = Some (Return tt, w') ->
  store w' !! key m = Some (utcnow E (clock w'))
  /\ exists n, clock w' = (n + clock w)%nat.
Proof.
  intros Hrun. rewrite acquire_unfold in Hrun.
  destruct (acquire_loop E fuel m _) as [[o1 w1]|] eqn:Hloop; [|done].
  destruct (acquire_loop_effect E m _ _ _ _ Hloop)
    as [n [[-> ->]|(-> & _)]]; [|done]. injection Hrun as <-.
  unfold emit, locked, retried. cbn [store clock trace].
  split; [apply lookup_insert_eq|by exists n].
Qed.



(** X1: for a key the memcached client accepts, on a server that answers:
    when the key is absent, [acquire] takes the lock at its first attempt
    whether retry is enabled or not: it returns without sleeping, the key
    holds this caller's timestamp and no other key is changed.  (The client
    refuses other keys, an empty one or one with a space for instance,
    before anything is sent, and [acquire] then takes no lock.) *)
Theorem acquire_free_at_once E m w fuel :
  reachable E = true ->
  client_accepts_key (key m) = true ->
  store w !! key m = None ->
  exists w',
    acquire E (S fuel) m w = Some (Return tt, w')
    /\ store w' = <[key m := utcnow E (clock w)]> (store w)
    /\ (forall k, k <> key m -> store w' !! k = store w !! k)
    /\ clock w' = clock w
    /\ trace w' = (trace w ++ [Log DEBUG "Calling acquire";
                               Add (key m) (utcnow E (clock w)) true;
                               Log DEBUG "Returning acquire"])%list.
Proof.
  intros _ _ Hk. eexists. split.
  - rewrite acquire_unfold, acquire_loop_free by done. reflexivity.
  - unfold emit, locked. cbn [store clock trace]. split; [done|].
    split; [|split; [done|by rewrite <- !app_assoc]].
    intros k Hne. by rewrite lookup_insert_ne.
Qed.

Lemma acquire_free_at_once_witness :
  exists w',
    acquire env0 1 mutex_once w_free = Some (Return tt, w')
    /\ store w' = <["mutex-default" := "2013-05-17 10:00:00.0"]> ∅.
Proof.
  destruct (acquire_free_at_once env0 mutex_once w_free 0) as (w' & Hrun & Hst & _).
  - reflexivity.
  - reflexivity.
  - reflexivity.
  - by exists w'.
Defined.

(** ** How the guard ends *)

(** [run_process] hands over to the command only in the child, and the
    [execvp] call is the last thing the Python program does. *)
Lemma run_process_replaced sys args w t w' :
  run_process sys args w = Some (Replaced t, w') ->
  os_fork sys = Some 0
  /\ exists file rest,
       args = file :: rest
       /\ os_execvp sys file args = Some t
       /\ w' = World (store w) (clock w)
                     (trace w ++ [Fork; Log DEBUG "Starting process"; Execvp file args]).
Proof.
  intros Hrun. destruct (os_fork sys) as [pid|] eqn:Hf.
  - destruct (decide (pid = 0)) as [->|Hp].
    + split; [done|]. destruct args as [|file rest] eqn:Ha.
      * by rewrite run_process_child_no_command in Hrun.
      * destruct (os_execvp sys file (file :: rest)) as [t'|] eqn:Hx.
        -- rewrite (run_process_child_exec sys _ w file rest t') in Hrun by done.
           injection Hrun as <- <-. by exists file, rest.
        -- by rewrite (run_process_child_exec_fails sys _ w file rest) in Hrun.
    + destruct (os_waitpid sys pid) as [[[child status] st]|] eqn:Hw.
      * by rewrite (run_process_waited sys args w pid child status st) in Hrun.
      * by rewrite (run_process_wait_fails sys args w pid) in Hrun.
  - by rewrite run_process_fork_fails in Hrun.
Qed.

(** A guard that ends either handed over to the command, right after a
    successful [acquire], or returned from [release]. *)
Lemma guard_end E sys fuel m args w o w' :
  guard E sys fuel m args w = Some (o, w') ->
  (exists t w2, o = Replaced t
                /\ acquire E fuel m w = Some (Return tt, w2)
                /\ run_process sys args w2 = Some (Replaced t, w'))
  \/ (exists r w3, o = Return r /\ w' = released (key m) w3).
Proof.
  intros Hg.
  destruct (acquire E fuel m w) as [[o1 w2]|] eqn:Ha;
    [|by rewrite guard_blocked in Hg].
  destruct (acquire_events _ _ _ _ _ _ Ha) as [[-> | ->] _].
  - destruct (run_process_total sys args w2) as (o2 & w3 & Hp & _).
    destruct o2 as [r|e|t].
    + rewrite (guard_returned _ _ _ _ _ _ _ _ _ Ha Hp) in Hg. injection Hg as <- <-.
      right. by eexists _, _.
    + rewrite (guard_raised _ _ _ _ _ _ _ _ _ Ha Hp) in Hg. injection Hg as <- <-.
      right. by eexists _, _.
    + rewrite (guard_replaced _ _ _ _ _ _ _ _ _ Ha Hp) in Hg. injection Hg as <- <-.
      left. by exists t, w2.
  - rewrite (guard_denied _ _ _ _ _ _ _ Ha) in Hg. injection Hg as <- <-.
    right. by eexists _, _.
Qed.

(** X3: the guard never leaves the lock behind: whenever it ends in this
    process, whatever the child did and whether the lock was acquired or
    denied, the key is absent from the store. *)
Theorem guard_leaves_key_absent E sys fuel m args w o w' :
  guard E sys fuel m args w = Some (o, w') ->
  (forall t, o <> Replaced t) ->
  store w' !! key m = None.
Proof.
  intros Hg Ho.
  destruct (guard_end _ _ _ _ _ _ _ _ Hg) as [(t & w2 & -> & _)|(r & w3 & _ & ->)].
  - by destruct (Ho t).
  - apply lookup_delete_eq.
Qed.

Lemma guard_leaves_key_absent_witness :
  exists o w',
    guard env0 (parent_os env0 4242 (helper_exit 7) 1 ["sherlock.py"; "-once"; "helper"] w_held)
          1 mutex_once ["helper"] w_held = Some (o, w')
    /\ store w' !! "mutex-default" = None.
Proof.
  eexists _, _. split; [vm_compute; reflexivity|].
  apply (guard_leaves_key_absent env0
           (parent_os env0 4242 (helper_exit 7) 1 ["sherlock.py"; "-once"; "helper"] w_held)
           1 mutex_once ["helper"] w_held (Return 0)).
  - vm_compute. reflexivity.
  - discriminate.
Defined.

(** X4: when the guard hands the process over to the command, the lock is
    held: the key is in the store under this caller's timestamp, no delete
    was sent and [release] was not called; the last thing done is the
    [execvp] of the command with the whole argument list. *)
Theorem command_runs_under_lock E sys fuel m args w t w' :
  guard E sys fuel m args w = Some (Replaced t, w') ->
  store w' !! key m = Some (utcnow E (clock w'))
  /\ count is_delete (trace w') = count is_delete (trace w)
  /\ count is_release_call (trace w') = count is_release_call (trace w)
  /\ exists file rest, args = file :: rest /\ last (trace w') = Some (Execvp file args).
Proof.
  intros Hg.
  destruct (guard_end _ _ _ _ _ _ _ _ Hg) as [(t' & w2 & [= <-] & Ha & Hp)|(r & w3 & [=] & _)].
  destruct (acquire_counts _ _ _ _ _ _ Ha) as (Hrel & Hdel & _).
  destruct (acquire_returned_store _ _ _ _ _ Ha) as (Hst & _).
  destruct (run_process_replaced _ _ _ _ _ Hp) as (_ & file & rest & -> & _ & ->).
  cbn [store clock trace]. split; [exact Hst|].
  split; [count_lia|]. split; [count_lia|]. exists file, rest. split; [done|].
  by rewrite last_app.
Qed.

Lemma command_runs_under_lock_witness :
  exists w',
    guard env0 (child_os (helper_exit 7)) 1 mutex_retry ["helper"; "exitcode:7"] w_free
    = Some (Replaced (Exited 7), w')
    /\ store w' !! "mutex-default" = Some "2013-05-17 10:00:00.0".
Proof.
  eexists. split; [vm_compute; reflexivity|].
  apply (command_runs_under_lock env0 (child_os (helper_exit 7)) 1 mutex_retry
           ["helper"; "exitcode:7"] w_free (Exited 7)).
  vm_compute. reflexivity.
Defined.

(** ** What is handed to [execvp] *)




(** ** Parent and child together, continued *)








(** * Properties of the test helper *)

Lemma split_colon_spec (arg name v : string) :
  Helper.split_colon arg = Some (name, v)
  <-> arg = name ++ String Helper.colon v /\ Helper.split_colon name = None.
Proof.
  split.
  - revert name v. induction arg as [|c arg IH]; intros name v Hs; [done|].
    simpl in Hs. destruct (Ascii.eqb c Helper.colon) eqn:Hc.
    + injection Hs as <- <-. apply Ascii.eqb_eq in Hc as ->. done.
    + destruct (Helper.split_colon arg) as [[n' v']|] eqn:Hrest; [|done].
      injection Hs as <- <-. destruct (IH n' v' eq_refl) as [-> Hn].
      split; [done|]. simpl. by rewrite Hc, Hn.
  - intros [-> Hn]. induction name as [|c name IH]; simpl.
    + by rewrite ?Ascii.eqb_refl.
    + simpl in Hn. destruct (Ascii.eqb c Helper.colon); [done|].
      destruct (Helper.split_colon name) as [[n' v']|]; [done|]. by rewrite IH.
Qed.

(** X10: [arg.split(':', 1)] cuts at the first colon only: an argument
    splits into a name and a value exactly when it is the name, a colon and
    the value, with no colon in the name; the value may hold further
    colons. *)
Theorem split_colon_first (arg name v : string) :
  Helper.split_colon arg = Some (name, v)
  <-> arg = name ++ String Helper.colon v /\ Helper.split_colon name = None.
Proof. apply split_colon_spec. Qed.

Section HelperProperties.

Variable py_unicode : string -> option string.
Variable py_int : string -> option Z.
Variable writable : string -> bool.
Variable maxint : Z.


Lemma convert_type ty v x :
  Helper.convert py_unicode py_int ty v = Some x -> Helper.type_of x = ty.
Proof.
  destruct ty; simpl; intros (y & _ & ->)%fmap_Some; done.
Qed.

(** One turn of the loop on an argument that gives no complaint. *)
Lemma parse_loop_accepts arg rest (d : gmap string Helper.value) :
  Helper.complaint py_unicode py_int arg = None ->
  exists name v ty x,
    Helper.split_colon arg = Some (name, v)
    /\ Helper.ARGUMENTS !! name = Some ty
    /\ Helper.convert py_unicode py_int ty v = Some x
    /\ Helper.parse_loop py_unicode py_int (arg :: rest) d
       = Helper.parse_loop py_unicode py_int rest (<[name := x]> d).
Proof.
  unfold Helper.complaint. simpl.
  destruct (Helper.split_colon arg) as [[name v]|] eqn:Hs; [|done].
  destruct (Helper.ARGUMENTS !! name) as [ty|] eqn:Ht; [|done].
  destruct (Helper.convert py_unicode py_int ty v) as [x|] eqn:Hx; [|done].
  intros _. by exists name, v, ty, x.
Qed.

Lemma parse_loop_complains arg rest (d : gmap string Helper.value) msg :
  Helper.complaint py_unicode py_int arg = Some msg ->
  Helper.parse_loop py_unicode py_int (arg :: rest) d = Helper.SysExit (ExitStr msg).
Proof.
  unfold Helper.complaint. simpl.
  destruct (Helper.split_colon arg) as [[name v]|]; [|congruence].
  destruct (Helper.ARGUMENTS !! name) as [ty|]; [|congruence].
  destruct (Helper.convert py_unicode py_int ty v) as [x|]; [done|congruence].
Qed.

Lemma parse_loop_first_complaint good bad rest msg : forall d : gmap string Helper.value,
  Forall (fun arg => Helper.complaint py_unicode py_int arg = None) good ->
  Helper.complaint py_unicode py_int bad = Some msg ->
  Helper.parse_loop py_unicode py_int (good ++ bad :: rest) d = Helper.SysExit (ExitStr msg).
Proof.
  induction good as [|arg good IH]; intros d Hgood Hbad.
  - by apply parse_loop_complains.
  - apply Forall_cons in Hgood as [Harg Hgood]. rewrite <- app_comm_cons.
    destruct (parse_loop_accepts arg (good ++ bad :: rest) d Harg)
      as (name & v & ty & x & _ & _ & _ & ->).
    by apply IH.
Qed.

(** X11: the arguments are all checked before anything is written, and the
    first one that is wrong decides: when every argument before [bad] is
    accepted and [bad] is not, the script exits with the message about
    [bad], whatever follows it, with exit status 1 and without having
    written anything. *)
Theorem first_complaint_decides prog good bad rest msg :
  Forall (fun arg => Helper.complaint py_unicode py_int arg = None) good ->
  Helper.complaint py_unicode py_int bad = Some msg ->
  Helper.main py_unicode py_int writable (prog :: good ++ bad :: rest)
  = (Helper.SysExit (ExitStr msg), [])
  /\ Helper.status maxint (Helper.SysExit (ExitStr msg)) = 1.
Proof.
  intros Hgood Hbad. split; [|done].
  unfold Helper.main, Helper.parse_args. cbn [drop].
  by rewrite (parse_loop_first_complaint good bad rest msg ∅ Hgood Hbad).
Qed.

(** The three complaints. *)
Lemma complaint_no_colon arg :
  Helper.split_colon arg = None ->
  Helper.complaint py_unicode py_int arg = Some ("Invalid argument format: " ++ arg).
Proof. unfold Helper.complaint. by intros ->. Qed.

Lemma complaint_unknown_name arg name v :
  Helper.split_colon arg = Some (name, v) ->
  name <> "stdout" -> name <> "stderr" -> name <> "exitcode" -> name <> "touchfile" ->
  Helper.complaint py_unicode py_int arg = Some ("Argument not available: " ++ arg).
Proof.
  unfold Helper.complaint, Helper.ARGUMENTS. intros -> H1 H2 H3 H4.
  by rewrite !lookup_insert_ne, lookup_empty.
Qed.

Lemma complaint_bad_exitcode v :
  Helper.split_colon v = None ->
  py_int v = None ->
  Helper.complaint py_unicode py_int ("exitcode:" ++ v)
  = Some ("Invalid argument type, expect <type 'int'> for exitcode:" ++ v).
Proof.
  intros Hv Hint. unfold Helper.complaint.
  assert (Helper.split_colon ("exitcode:" ++ v) = Some ("exitcode", v)) as ->.
  { by apply split_colon_spec. }
  assert (Helper.ARGUMENTS !! "exitcode" = Some Helper.TInt) as -> by done.
  simpl. by rewrite Hint.
Qed.

Lemma parse_loop_ok l : forall d : gmap string Helper.value,
  (exists d', Helper.parse_loop py_unicode py_int l d = Helper.Ok d')
  <-> Forall (fun arg => Helper.complaint py_unicode py_int arg = None) l.
Proof.
  induction l as [|arg l IH]; intros d.
  - split; [done|]. intros _. by exists d.
  - destruct (Helper.complaint py_unicode py_int arg) as [msg|] eqn:Hc.
    + rewrite (parse_loop_complains arg l d msg Hc). split.
      * by intros [d' Hd'].
      * intros Hall. apply Forall_cons in Hall as [Harg _]. congruence.
    + destruct (parse_loop_accepts arg l d Hc) as (name & v & ty & x & _ & _ & _ & ->).
      rewrite IH. split; [by constructor|]. by intros [_ ?]%Forall_cons.
Qed.

(** X12: [parse_args] returns a dictionary exactly when no argument gives
    rise to a complaint: each must hold a colon, a name among [stdout],
    [stderr], [exitcode] and [touchfile] before the first colon, and a value
    its type accepts. *)
Theorem parse_args_ok_iff prog l :
  (exists d, Helper.parse_args py_unicode py_int (prog :: l) = Helper.Ok d)
  <-> Forall (fun arg => exists name v ty x,
                 Helper.split_colon arg = Some (name, v)
                 /\ Helper.ARGUMENTS !! name = Some ty
                 /\ Helper.convert py_unicode py_int ty v = Some x) l.
Proof.
  unfold Helper.parse_args. cbn [drop]. rewrite parse_loop_ok.
  apply Forall_iff. intros arg. split.
  - intros Hc. destruct (parse_loop_accepts arg [] ∅ Hc) as (name & v & ty & x & ? & ? & ? & _).
    by exists name, v, ty, x.
  - intros (name & v & ty & x & Hs & Ht & Hx). unfold Helper.complaint.
    by rewrite Hs, Ht, Hx.
Qed.

End HelperProperties.

Lemma first_complaint_decides_witness :
  Helper.run ["sherlock_test_helper.py"; "stdout:hello"; "nocolon"; "bogus:1"]
  = (Helper.SysExit (ExitStr "Invalid argument format: nocolon"), []).
Proof.
  apply (first_complaint_decides Helper.unicode_ascii Helper.int_decimal
           Helper.writable_but_proc Helper.maxint64
           "sherlock_test_helper.py" ["stdout:hello"] "nocolon" ["bogus:1"]
           "Invalid argument format: nocolon").
  - constructor; [reflexivity|constructor].
  - reflexivity.
Defined.

Section HelperRuns.

Variable py_unicode : string -> option string.
Variable py_int : string -> option Z.
Variable writable : string -> bool.
Variable maxint : Z.


Lemma parse_loop_typed l : forall d d' : gmap string Helper.value,
  Helper.well_typed d ->
  Helper.parse_loop py_unicode py_int l d = Helper.Ok d' ->
  Helper.well_typed d'.
Proof.
  induction l as [|arg l IH]; intros d d' Hd Hrun; simpl in Hrun.
  - by injection Hrun as <-.
  - destruct (Helper.split_colon arg) as [[name v]|]; [|done].
    destruct (Helper.ARGUMENTS !! name) as [ty|] eqn:Ht; [|done].
    destruct (Helper.convert py_unicode py_int ty v) as [x|] eqn:Hx; [|done].
    eapply IH; [|exact Hrun]. intros k y Hk.
    destruct (decide (name = k)) as [<-|Hne].
    + rewrite lookup_insert_eq in Hk. injection Hk as <-.
      by rewrite (convert_type py_unicode py_int ty v x Hx).
    + rewrite lookup_insert_ne in Hk by done. by apply Hd.
Qed.

Lemma parse_loop_last l arg name v : forall d d' : gmap string Helper.value,
  Helper.split_colon arg = Some (name, v) ->
  Helper.parse_loop py_unicode py_int (l ++ [arg]) d = Helper.Ok d' ->
  exists ty x,
    Helper.ARGUMENTS !! name = Some ty
    /\ Helper.convert py_unicode py_int ty v = Some x
    /\ d' !! name = Some x.
Proof.
  induction l as [|a l IH]; intros d d' Hs Hrun; simpl in Hrun.
  - rewrite Hs in Hrun.
    destruct (Helper.ARGUMENTS !! name) as [ty|] eqn:Ht; [|done].
    destruct (Helper.convert py_unicode py_int ty v) as [x|] eqn:Hx; [|done].
    injection Hrun as <-. exists ty, x. by rewrite lookup_insert_eq.
  - destruct (Helper.split_colon a) as [[n' v']|]; [|done].
    destruct (Helper.ARGUMENTS !! n') as [ty'|]; [|done].
    destruct (Helper.convert py_unicode py_int ty' v') as [x'|]; [|done].
    by apply (IH _ _ Hs Hrun).
Qed.

(** X13: the dictionary [parse_args] returns holds, under each name, a value
    of the type [ARGUMENTS] declares for it, so only the four known names
    occur; and when a name is given several times the last argument wins:
    the name of the last argument is bound to that argument's converted
    value. *)
Theorem parse_args_last_wins prog l arg name v d :
  Helper.split_colon arg = Some (name, v) ->
  Helper.parse_args py_unicode py_int (prog :: l ++ [arg]) = Helper.Ok d ->
  (exists ty x,
     Helper.ARGUMENTS !! name = Some ty
     /\ Helper.convert py_unicode py_int ty v = Some x
     /\ d !! name = Some x)
  /\ (forall k y, d !! k = Some y -> Helper.ARGUMENTS !! k = Some (Helper.type_of y)).
Proof.
  unfold Helper.parse_args. cbn [drop]. intros Hs Hrun. split.
  - by apply (parse_loop_last l arg name v ∅ d).
  - apply (parse_loop_typed (l ++ [arg]) ∅ d); [|done]. intros k y Hk.
    by rewrite lookup_empty in Hk.
Qed.

Lemma parse_args_typed argv d :
  Helper.parse_args py_unicode py_int argv = Helper.Ok d -> Helper.well_typed d.
Proof.
  unfold Helper.parse_args. apply parse_loop_typed. intros k y Hk.
  by rewrite lookup_empty in Hk.
Qed.

(** What [main] does once the arguments are parsed, read off a well-typed
    dictionary. *)
Lemma main_parsed argv d :
  Helper.parse_args py_unicode py_int argv = Helper.Ok d ->
  Helper.main py_unicode py_int writable argv =
  let out1 := match d !! "stdout" with
              | Some v => [Helper.Stdout (Helper.text v)]
              | None => []
              end in
  let out2 := match d !! "stderr" with
              | Some v => [Helper.Stderr (Helper.text v)]
              | None => []
              end in
  match d !! "touchfile" with
  | Some (Helper.VUnicode path) =>
      if writable path
      then (match d !! "exitcode" with
            | Some (Helper.VInt n) => Helper.SysExit (ExitInt n)
            | _ => Helper.Ok tt
            end,
            (out1 ++ out2 ++ [Helper.Write path "sherlock says hi"])%list)
      else (Helper.Uncaught "IOError", (out1 ++ out2)%list)
  | _ =>
      (match d !! "exitcode" with
       | Some (Helper.VInt n) => Helper.SysExit (ExitInt n)
       | _ => Helper.Ok tt
       end,
       (out1 ++ out2)%list)
  end.
Proof.
  intros Hp. pose proof (parse_args_typed argv d Hp) as Hty.
  unfold Helper.main. rewrite Hp.
  assert (forall s, d !! "exitcode" <> Some (Helper.VUnicode s)) as Hexit.
  { intros s Hs. by specialize (Hty _ _ Hs). }
  assert (forall n, d !! "touchfile" <> Some (Helper.VInt n)) as Htouch.
  { intros n Hn. by specialize (Hty _ _ Hn). }
  destruct (d !! "stdout") as [v1|]; destruct (d !! "stderr") as [v2|];
    destruct (d !! "touchfile") as [[path|n]|]; try (by destruct (Htouch n));
    cbn [Helper.touch app]; try destruct (writable path);
    destruct (d !! "exitcode") as [[s|n]|]; try (by destruct (Hexit s)); done.
Qed.

(** X14: the only exception that can come out of [main] uncaught is the
    [IOError] of a [touchfile] that cannot be opened, and [sys.exit] with an
    integer is the only exit once the arguments are accepted: the values are
    of the declared types, so no [TypeError] arises. *)
Theorem main_ends argv r out :
  Helper.main py_unicode py_int writable argv = (r, out) ->
  r = Helper.Ok tt
  \/ (exists msg, r = Helper.SysExit (ExitStr msg) /\ out = []
                  /\ Helper.parse_args py_unicode py_int argv = Helper.SysExit (ExitStr msg))
  \/ (exists n d, r = Helper.SysExit (ExitInt n)
                  /\ Helper.parse_args py_unicode py_int argv = Helper.Ok d
                  /\ d !! "exitcode" = Some (Helper.VInt n))
  \/ (exists path d, r = Helper.Uncaught "IOError"
                     /\ Helper.parse_args py_unicode py_int argv = Helper.Ok d
                     /\ d !! "touchfile" = Some (Helper.VUnicode path)
                     /\ writable path = false).
Proof.
  destruct (Helper.parse_args py_unicode py_int argv) as [d|[n|msg]|e] eqn:Hp.
  - rewrite (main_parsed argv d Hp). cbn zeta.
    destruct (d !! "touchfile") as [[path|n]|] eqn:Ht;
      [destruct (writable path) eqn:Hw|..];
      destruct (d !! "exitcode") as [[s|n']|] eqn:He; intros [= <- <-];
      first [by left
            | by right; right; left; eexists _, d
            | by right; right; right; exists path, d ].
  - exfalso. revert Hp. unfold Helper.parse_args.
    generalize (drop 1 argv) (∅ : gmap string Helper.value).
    induction l as [|arg l IH]; intros d Hrun; simpl in Hrun; [done|].
    destruct (Helper.split_colon arg) as [[name v]|]; [|done].
    destruct (Helper.ARGUMENTS !! name) as [ty|]; [|done].
    destruct (Helper.convert py_unicode py_int ty v) as [x|]; [|done]. by apply (IH _ Hrun).
  - unfold Helper.main. rewrite Hp. intros [= <- <-]. right. left. by exists msg.
  - exfalso. revert Hp. unfold Helper.parse_args.
    generalize (drop 1 argv) (∅ : gmap string Helper.value).
    induction l as [|arg l IH]; intros d Hrun; simpl in Hrun; [done|].
    destruct (Helper.split_colon arg) as [[name v]|]; [|done].
    destruct (Helper.ARGUMENTS !! name) as [ty|]; [|done].
    destruct (Helper.convert py_unicode py_int ty v) as [x|]; [|done]. by apply (IH _ Hrun).
Qed.

(** X15: the exit code is honoured after everything else.  When the
    arguments are accepted, [exitcode] is [n] in the range of an exit status
    and the [touchfile], if any, can be written, the script exits with
    status [n], having printed the [stdout] value, then the [stderr] value,
    then written the file, each if asked for. *)
Theorem exit_code_honoured argv d n :
  Helper.parse_args py_unicode py_int argv = Helper.Ok d ->
  d !! "exitcode" = Some (Helper.VInt n) ->
  0 <= n <= 255 ->
  255 <= maxint ->
  (forall path, d !! "touchfile" = Some (Helper.VUnicode path) -> writable path = true) ->
  exists out,
    Helper.main py_unicode py_int writable argv = (Helper.SysExit (ExitInt n), out)
    /\ Helper.status maxint (Helper.SysExit (ExitInt n)) = n
    /\ out = (match d !! "stdout" with
              | Some v => [Helper.Stdout (Helper.text v)]
              | None => []
              end
              ++ match d !! "stderr" with
                 | Some v => [Helper.Stderr (Helper.text v)]
                 | None => []
                 end
              ++ match d !! "touchfile" with
                 | Some v => [Helper.Write (Helper.text v) "sherlock says hi"]
                 | None => []
                 end)%list.
Proof.
  intros Hp He Hn Hmax Hw.
  assert (Helper.status maxint (Helper.SysExit (ExitInt n)) = n) as Hstatus.
  { unfold Helper.status. rewrite bool_decide_true by lia.
    change 255 with (Z.ones 8). rewrite Z.land_ones by lia. apply Z.mod_small. lia. }
  pose proof (parse_args_typed argv d Hp) as Hty.
  rewrite (main_parsed argv d Hp), He. cbn zeta.
  destruct (d !! "touchfile") as [[path|k]|] eqn:Ht.
  - rewrite (Hw path eq_refl). eexists. split; [reflexivity|]. split; [done|done].
  - by specialize (Hty _ _ Ht).
  - eexists. split; [reflexivity|]. split; [done|]. by rewrite app_nil_r.
Qed.

(** X16: a [touchfile] that cannot be opened ends the script with an
    uncaught [IOError], hence with status 1, whatever [exitcode] asks for;
    the values of [stdout] and [stderr] are already printed by then, and
    nothing else is written. *)
Theorem unwritable_touchfile argv d path :
  Helper.parse_args py_unicode py_int argv = Helper.Ok d ->
  d !! "touchfile" = Some (Helper.VUnicode path) ->
  writable path = false ->
  exists out,
    Helper.main py_unicode py_int writable argv = (Helper.Uncaught "IOError", out)
    /\ Helper.status maxint (Helper.Uncaught "IOError") = 1
    /\ out = (match d !! "stdout" with
              | Some v => [Helper.Stdout (Helper.text v)]
              | None => []
              end
              ++ match d !! "stderr" with
                 | Some v => [Helper.Stderr (Helper.text v)]
                 | None => []
                 end)%list.
Proof.
  intros Hp Ht Hw. rewrite (main_parsed argv d Hp), Ht, Hw. cbn zeta.
  eexists. split; [reflexivity|]. by split.
Qed.

End HelperRuns.

Lemma parse_args_last_wins_witness :
  (exists ty x,
     Helper.ARGUMENTS !! "exitcode" = Some ty
     /\ Helper.convert Helper.unicode_ascii Helper.int_decimal ty "-1" = Some x
     /\ (<["exitcode" := Helper.VInt (-1)]> (<["exitcode" := Helper.VInt 3]> ∅)
           : gmap string Helper.value) !! "exitcode" = Some x)
  /\ (forall k y,
        (<["exitcode" := Helper.VInt (-1)]> (<["exitcode" := Helper.VInt 3]> ∅)
           : gmap string Helper.value) !! k = Some y ->
        Helper.ARGUMENTS !! k = Some (Helper.type_of y)).
Proof.
  apply (parse_args_last_wins Helper.unicode_ascii Helper.int_decimal
           "sherlock_test_helper.py" ["exitcode:3"] "exitcode:-1" "exitcode" "-1").
  - reflexivity.
  - reflexivity.
Defined.

Lemma main_ends_witness :
  @Helper.Uncaught unit "IOError" = Helper.Ok tt
  \/ (exists msg, @Helper.Uncaught unit "IOError" = Helper.SysExit (ExitStr msg)
                  /\ [Helper.Stdout "hello"] = []
                  /\ Helper.parse_args Helper.unicode_ascii Helper.int_decimal
                       ["sherlock_test_helper.py"; "stdout:hello";
                        "touchfile:/proc/nowhere"; "exitcode:3"]
                     = Helper.SysExit (ExitStr msg))
  \/ (exists n d, @Helper.Uncaught unit "IOError" = Helper.SysExit (ExitInt n)
                  /\ Helper.parse_args Helper.unicode_ascii Helper.int_decimal
                       ["sherlock_test_helper.py"; "stdout:hello";
                        "touchfile:/proc/nowhere"; "exitcode:3"]
                     = Helper.Ok d
                  /\ d !! "exitcode" = Some (Helper.VInt n))
  \/ (exists path d, @Helper.Uncaught unit "IOError" = Helper.Uncaught "IOError"
                     /\ Helper.parse_args Helper.unicode_ascii Helper.int_decimal
                          ["sherlock_test_helper.py"; "stdout:hello";
                           "touchfile:/proc/nowhere"; "exitcode:3"]
                        = Helper.Ok d
                     /\ d !! "touchfile" = Some (Helper.VUnicode path)
                     /\ Helper.writable_but_proc path = false).
Proof.
  apply (main_ends Helper.unicode_ascii Helper.int_decimal Helper.writable_but_proc
           ["sherlock_test_helper.py"; "stdout:hello"; "touchfile:/proc/nowhere";
            "exitcode:3"]
           (Helper.Uncaught "IOError") [Helper.Stdout "hello"]).
  vm_compute. reflexivity.
Defined.

Lemma exit_code_honoured_witness :
  exists out,
    Helper.run ["sherlock_test_helper.py"; "stdout:hello"; "exitcode:7"]
    = (Helper.SysExit (ExitInt 7), out)
    /\ Helper.status Helper.maxint64 (Helper.SysExit (ExitInt 7)) = 7.
Proof.
  destruct (exit_code_honoured Helper.unicode_ascii Helper.int_decimal
              Helper.writable_but_proc Helper.maxint64
              ["sherlock_test_helper.py"; "stdout:hello"; "exitcode:7"]
              (<["exitcode" := Helper.VInt 7]> (<["stdout" := Helper.VUnicode "hello"]> ∅))
              7) as (out & Hm & Hs & _).
  - reflexivity.
  - vm_compute. reflexivity.
  - lia.
  - vm_compute. discriminate.
  - intros path Hpath. vm_compute in Hpath. discriminate Hpath.
  - exists out. split; [exact Hm|exact Hs].
Defined.

Lemma unwritable_touchfile_witness :
  exists out,
    Helper.run ["sherlock_test_helper.py"; "stdout:hello"; "touchfile:/proc/nowhere";
                "exitcode:0"]
    = (Helper.Uncaught "IOError", out)
    /\ Helper.status Helper.maxint64 (Helper.Uncaught "IOError") = 1.
Proof.
  destruct (unwritable_touchfile Helper.unicode_ascii Helper.int_decimal
              Helper.writable_but_proc Helper.maxint64
              ["sherlock_test_helper.py"; "stdout:hello"; "touchfile:/proc/nowhere";
               "exitcode:0"]
              (<["exitcode" := Helper.VInt 0]>
                 (<["touchfile" := Helper.VUnicode "/proc/nowhere"]>
                    (<["stdout" := Helper.VUnicode "hello"]> ∅)))
              "/proc/nowhere") as (out & Hm & Hs & _).
  - reflexivity.
  - vm_compute. reflexivity.
  - reflexivity.
  - exists out. split; [exact Hm|exact Hs].
Defined.
